(** * diffusionkit: utility module and model loader

    A shallow embedding of [diffusionkit/modules/utils.py] and [loader.py]
    together with the properties stated about them.

    Conventions.
    - Python [int] is [Z]; [//] is [Z.div] and [%] is [Z.modulo] (both
      follow the sign of the divisor, as in Python).
    - Python [float] is IEEE binary64, embedded with the executable
      specification of the Standard Library ([SpecFloat], precision 53,
      [emax] 1024), so concrete calls can be evaluated bit for bit.
    - A Python exception is a value of [exn]; a call that may raise returns
      a [result]; code that also reads or writes ambient state (the PIL
      object heap, the random generator, the model registry, the console)
      lives in the state-and-exception monad [M]: the state reached when an
      exception escapes is kept, as in Python.
    - External libraries (PIL, torch, numpy, omegaconf, multiprocessing)
      are embedded through the part of their interface the code relies on;
      each such definition says so. *)

From Stdlib Require Import ZArith QArith Qabs Floats.SpecFloat String Ascii Lia.
From stdpp Require Import base option list gmap strings pretty.

Set Default Proof Using "Type".
Open Scope Z_scope.

(** ** Python exceptions and results *)

Inductive exn_kind : Type :=
  | ValueError
  | KeyError
  | TypeError
  | IndexError
  | AttributeError
  | ZeroDivisionError
  | OverflowError
  | UnboundLocalError
  | RuntimeError
  | ModuleNotFoundError
  | FileNotFoundError
  | BaseException.  (* a bare [Exception(...)] *)

Record exn : Type := Exn { exn_kind_of : exn_kind; exn_msg : string }.

Inductive result (A : Type) : Type :=
  | Ok (a : A)
  | Raise (e : exn).
Arguments Ok {A} a.
Arguments Raise {A} e.

Definition rbind {A B} (r : result A) (k : A -> result B) : result B :=
  match r with
  | Ok a => k a
  | Raise e => Raise e
  end.

Declare Scope py_scope.
Delimit Scope py_scope with py.
Notation "'try!' x := r 'in' k" := (rbind r (fun x => k))
  (at level 10, x pattern, r at level 100, k at level 200) : py_scope.

(** The state-and-exception monad: [M S A] is a computation over an
    ambient state [S] that returns an [A] or raises, and in both cases
    leaves a state behind. *)
Definition M (S A : Type) : Type := S -> result A * S.

Definition ret {S A} (a : A) : M S A := fun s => (Ok a, s).
Definition throw {S A} (e : exn) : M S A := fun s => (Raise e, s).
Definition bind {S A B} (m : M S A) (k : A -> M S B) : M S B :=
  fun s => match m s with
           | (Ok a, s') => k a s'
           | (Raise e, s') => (Raise e, s')
           end.
Definition lift {S A} (r : result A) : M S A := fun s => (r, s).
Definition get_state {S} : M S S := fun s => (Ok s, s).
Definition put_state {S} (s : S) : M S unit := fun _ => (Ok tt, s).
Definition modify {S} (f : S -> S) : M S unit := fun s => (Ok tt, f s).

Notation "'do!' x <- m ; k" := (bind m (fun x => k))
  (at level 10, x pattern, m at level 100, k at level 200) : py_scope.
Notation "m ;;; k" := (bind m (fun _ => k))
  (at level 100, k at level 200, right associativity) : py_scope.

Open Scope py_scope.

(** The double-quote character, for messages that contain one. *)
Definition dquote : string := String "034"%char EmptyString.

(** ** Python floats *)

Module PyFloat.

Definition prec : Z := 53.
Definition emax : Z := 1024.

Abbreviation float := spec_float.

(** [float(n)] for an integer [n], correctly rounded. *)
Definition of_int (n : Z) : float := binary_normalize prec emax n 0 false.

(** A literal with the exact value [m * 2^e], such as [0.5]. *)
Definition of_dyadic (m e : Z) : float := binary_normalize prec emax m e false.

(** The literal [0.] *)
Definition zero : float := S754_zero false.
Definition nan : float := S754_nan.

(** Truth value of a float: only the two zeros are falsy. *)
Definition truthy (x : float) : bool :=
  match x with
  | S754_zero _ => false
  | _ => true
  end.

Definition mul : float -> float -> float := SFmul prec emax.
Definition sub : float -> float -> float := SFsub prec emax.
Definition ltb : float -> float -> bool := SFltb.
Definition leb : float -> float -> bool := SFleb.

(** [x / y] raises on a zero divisor instead of producing an infinity. *)
Definition truediv (x y : float) : result float :=
  match y with
  | S754_zero _ => Raise (Exn ZeroDivisionError "float division by zero")
  | _ => Ok (SFdiv prec emax x y)
  end.

(** [a / b] on two integers: the correctly rounded quotient.  For
    operands below 2^53 in magnitude, which covers image sizes and list
    lengths, this is the IEEE quotient of the two converted operands. *)
Definition int_truediv (a b : Z) : result float :=
  if b =? 0 then Raise (Exn ZeroDivisionError "division by zero")
  else Ok (SFdiv prec emax (of_int a) (of_int b)).

(** The builtin [min(a, b)] on two floats: the second argument wins only
    when it is strictly smaller. *)
Definition min2 (a b : float) : float := if ltb b a then b else a.

(** [x ** 2].  CPython special-cases NaN, infinities and zeros and
    otherwise calls the C library's [pow], turning an overflow into
    [OverflowError]; squaring is exact-then-rounded there. *)
Definition pow2 (x : float) : result float :=
  match x with
  | S754_nan => Ok S754_nan
  | S754_infinity _ => Ok (S754_infinity false)
  | S754_zero _ => Ok zero
  | S754_finite _ _ _ =>
      match mul x x with
      | S754_infinity _ =>
          Raise (Exn OverflowError "(34, 'Numerical result out of range')")
      | r => Ok r
      end
  end.

(** A Python number produced by [** 0.5]: a float, or a complex number
    when the base is negative (whose value is not modelled). *)
Inductive number : Type :=
  | Real (x : float)
  | Complex.

(** [x ** 0.5], with the C library's [pow(x, 0.5)] taken to be the
    correctly rounded square root. *)
Definition pow_half (x : float) : number :=
  match x with
  | S754_nan => Real S754_nan
  | S754_infinity _ => Real (S754_infinity false)
  | S754_zero _ => Real zero
  | S754_finite true _ _ => Complex
  | S754_finite false _ _ => Real (SFsqrt prec emax x)
  end.

(** The rational value of a finite float. *)
Definition to_Q (x : float) : option Q :=
  match x with
  | S754_zero _ => Some 0%Q
  | S754_finite s m e =>
      Some (inject_Z (if s then Zneg m else Zpos m) * Qpower 2 e)%Q
  | _ => None
  end.

(** [x] is finite and within [eps] of the rational [q]. *)
Definition within (eps : Q) (x : float) (q : Q) : Prop :=
  exists v, to_Q x = Some v /\ (Qabs (v - q) <= eps)%Q.

(** [x ≈ q] to four decimal places. *)
Definition approx4 (x : float) (q : Q) : Prop := within (5 # 100000) x q.

End PyFloat.

(** ** [get_ancestral_step] *)

Module AncestralStep.
Import PyFloat.

(** [get_ancestral_step(sigma_from, sigma_to, eta)] on floats; the result
    pair is [(sigma_down, sigma_up)].  When the radicand of [sigma_up] is
    negative the [** 0.5] is complex and the comparison inside [min]
    raises; [sigma_down] itself may come out complex. *)
Definition get_ancestral_step (sigma_from sigma_to eta : float)
  : result (number * float) :=
  if negb (truthy eta) then Ok (Real sigma_to, zero)
  else
    try! to2 := pow2 sigma_to in
    try! from2 := pow2 sigma_from in
    try! to2' := pow2 sigma_to in
    let num := mul to2 (sub from2 to2') in
    try! from2' := pow2 sigma_from in
    try! quot := truediv num from2' in
    match pow_half quot with
    | Complex =>
        Raise (Exn TypeError
          "'<' not supported between instances of 'complex' and 'float'")
    | Real root =>
        let sigma_up := min2 sigma_to (mul eta root) in
        try! to2'' := pow2 sigma_to in
        try! up2 := pow2 sigma_up in
        Ok (pow_half (sub to2'' up2), sigma_up)
    end.

(** The default [eta=1.] *)
Definition eta_default : float := of_int 1.

(** The literals [1.0] and [0.5]. *)
Definition one : float := of_int 1.
Definition half : float := of_dyadic 1 (-1).

End AncestralStep.

(** ** Tensors: [append_dims] and [create_random_tensors] *)

Module Tensor.

(** A dense tensor: its shape and its elements in row-major order. *)
Record tensor (A : Type) : Type := Tensor { shape : list nat; data : list A }.
Arguments Tensor {A} shape data.
Arguments shape {A} t.
Arguments data {A} t.

Definition ndim {A} (x : tensor A) : nat := length (shape x).
Definition numel (sh : list nat) : nat := foldr Nat.mul 1%nat sh.

(** [x[(...,) + (None,) * k]]: a view with [k] new axes of length one
    after the existing ones; the elements are untouched. *)
Definition index_ellipsis_none {A} (x : tensor A) (k : nat) : tensor A :=
  Tensor (shape x ++ replicate k 1%nat) (data x).

Definition append_dims_msg (ndim_x : nat) (target_dims : Z) : string :=
  "input has " +:+ pretty ndim_x +:+ " dims but target_dims is "
    +:+ pretty target_dims +:+ ", which is less".

Definition append_dims {A} (x : tensor A) (target_dims : Z) : result (tensor A) :=
  let dims_to_append := target_dims - Z.of_nat (ndim x) in
  if dims_to_append <? 0 then
    Raise (Exn ValueError (append_dims_msg (ndim x) target_dims))
  else Ok (index_ellipsis_none x (Z.to_nat dims_to_append)).

(** [t[i]]: the [i]-th slice along the leading axis. *)
Definition select {A} (t : tensor A) (i : nat) : option (tensor A) :=
  match shape t with
  | [] => None
  | n :: rest =>
      if (i <? n)%nat then
        Some (Tensor rest (take (numel rest) (drop (i * numel rest) (data t))))
      else None
  end.

(** [torch.stack(xs)]: a new leading axis indexing the inputs, which must
    be at least one and of equal shape. *)
Definition stack {A} (xs : list (tensor A)) : result (tensor A) :=
  match xs with
  | [] => Raise (Exn RuntimeError "stack expects a non-empty TensorList")
  | x :: _ =>
      if forallb (fun t => bool_decide (shape t = shape x)) xs then
        Ok (Tensor (length xs :: shape x) (concat (map data xs)))
      else
        Raise (Exn RuntimeError "stack expects each tensor to be equal size")
  end.

Section Random.
(** torch's global CPU generator.  [G] is its state, [manual_seed]
    the state that [torch.manual_seed(seed)] installs for an accepted
    seed, and [normal] one standard-normal draw. *)
Context {A G : Type}.
Variable manual_seed : Z -> G.
Variable normal : G -> A * G.

Fixpoint draws (n : nat) (g : G) : list A * G :=
  match n with
  | O => ([], g)
  | S n' =>
      let '(x, g1) := normal g in
      let '(xs, g2) := draws n' g1 in
      (x :: xs, g2)
  end.

(** [torch.manual_seed(seed)]: accepted seeds lie in
    [-0x8000_0000_0000_0000, 0xffff_ffff_ffff_ffff]; any other integer
    makes torch raise [RuntimeError] and leaves the generator alone. *)
Definition seed_in_range (seed : Z) : bool :=
  (- 2 ^ 63 <=? seed) && (seed <=? 2 ^ 64 - 1).

Definition torch_manual_seed (seed : Z) : M G unit :=
  if seed_in_range seed then put_state (manual_seed seed)
  else throw (Exn RuntimeError "Overflow when unpacking long").

(** [torch.randn(shape, device='cpu')] *)
Definition torch_randn (sh : list nat) : M G (tensor A) :=
  fun g => let '(xs, g') := draws (numel sh) g in (Ok (Tensor sh xs), g').

(** The [for seed in seeds] loop, returning the list [xs]. *)
Fixpoint seed_loop (sh : list nat) (seeds : list Z) : M G (list (tensor A)) :=
  match seeds with
  | [] => ret []
  | seed :: rest =>
      torch_manual_seed seed ;;;
      do! x <- torch_randn sh;
      do! xs <- seed_loop sh rest;
      ret (x :: xs)
  end.

Definition create_random_tensors (sh : list nat) (seeds : list Z)
  : M G (tensor A) :=
  do! xs <- seed_loop sh seeds;
  lift (stack xs).

(** The tensor drawn right after seeding with [seed]. *)
Definition draw_for (sh : list nat) (seed : Z) : tensor A :=
  Tensor sh (fst (draws (numel sh) (manual_seed seed))).

End Random.

(** A toy generator for examples: the state is a counter, seeding sets
    it to the seed, and each draw returns the counter and advances it. *)
Definition counter_seed (seed : Z) : Z := seed.
Definition counter_normal (g : Z) : Z * Z := (g, g + 1).

End Tensor.

(** ** Generic helpers: [exists] and [default] *)

Module Helpers.

(** What kind of callable a value is; [inspect.isfunction] accepts only
    the first. *)
Inductive callable_kind : Type :=
  | PyFunction        (* [def] or [lambda] *)
  | BuiltinFunction   (* e.g. [len] *)
  | PyClass           (* e.g. [dict], [list] *)
  | BoundMethod
  | PartialObject     (* [functools.partial(...)] *)
  | CallableInstance. (* an object with [__call__] *)

(** Python values as far as [default] can tell them apart.  A callable
    records how many arguments it requires and what it returns. *)
Inductive value : Type :=
  | VNone
  | VBool (b : bool)
  | VInt (n : Z)
  | VStr (s : string)
  | VCallable (k : callable_kind) (required_args : nat) (returns : value).

Definition exists_ (x : value) : bool :=
  match x with
  | VNone => false
  | _ => true
  end.

Definition isfunction (d : value) : bool :=
  match d with
  | VCallable PyFunction _ _ => true
  | _ => false
  end.

(** The builtin [callable(d)]. *)
Definition callable (d : value) : bool :=
  match d with
  | VCallable _ _ _ => true
  | _ => false
  end.

(** [d()] *)
Definition call0 (d : value) : result value :=
  match d with
  | VCallable _ O r => Ok r
  | VCallable _ (S _) _ =>
      Raise (Exn TypeError "missing required positional argument")
  | _ => Raise (Exn TypeError "object is not callable")
  end.

(** A callable that can be called with no argument. *)
Definition zero_arg_callable (d : value) : bool :=
  match d with
  | VCallable _ O _ => true
  | _ => false
  end.

Definition default (val d : value) : result value :=
  if exists_ val then Ok val
  else if isfunction d then call0 d else Ok d.

(** The builtin class [int]: callable with no argument, giving [0]. *)
Definition int_class : value := VCallable PyClass 0 (VInt 0).

End Helpers.

(** ** Strings: [in] and [rsplit] *)

Module PyStr.

(** [needle in hay] on two strings. *)
Fixpoint contains (needle hay : string) : bool :=
  String.prefix needle hay ||
  match hay with
  | EmptyString => false
  | String _ rest => contains needle rest
  end.

(** [s.rsplit('.', 1)] when it yields two parts: the text before the
    last dot and the text after it; [None] when [s] has no dot. *)
Fixpoint rsplit_dot (s : string) : option (string * string) :=
  match s with
  | EmptyString => None
  | String c rest =>
      match rsplit_dot rest with
      | Some (m, cls) => Some (String c m, cls)
      | None => if Ascii.eqb c "." then Some (EmptyString, rest) else None
      end
  end.

End PyStr.

(** ** [instantiate_from_config] and [get_obj_from_str] *)

Module Config.

Section Instantiate.
(** [V] stands for the values of constructor arguments, [Obj] for the
    objects that constructors build. *)
Context {V Obj : Type}.

(** What a configuration record maps a key to. *)
Inductive cfg_value : Type :=
  | CStr (s : string)
  | CMapping (kw : gmap string V)
  | COther (v : V).

(** What callers pass as [config]: a record, or one of the marker
    strings (any string, as far as the type goes). *)
Inductive config : Type :=
  | ConfigStr (s : string)
  | ConfigDict (d : gmap string cfg_value).

(** An attribute of a module, called with keyword arguments: what the
    call returns, or the exception it raises. *)
Definition constructor : Type := gmap string V -> result Obj.

(** The import system: module name to the module's attributes. *)
Variable modules : gmap string (gmap string constructor).

(** ["target" in config]: substring test on a string, key test on a
    record. *)
Definition has_target (c : config) : bool :=
  match c with
  | ConfigStr s => PyStr.contains "target" s
  | ConfigDict d => bool_decide (is_Some (d !! "target"))
  end.

(** [config == marker] *)
Definition config_eq_str (c : config) (marker : string) : bool :=
  match c with
  | ConfigStr s => String.eqb s marker
  | ConfigDict _ => false
  end.

Definition import_module (name : string) : result (gmap string constructor) :=
  match modules !! name with
  | Some m => Ok m
  | None =>
      Raise (Exn ModuleNotFoundError ("No module named '" +:+ name +:+ "'"))
  end.

Definition getattr (m : gmap string constructor) (name : string)
  : result constructor :=
  match m !! name with
  | Some f => Ok f
  | None =>
      Raise (Exn AttributeError ("module has no attribute '" +:+ name +:+ "'"))
  end.

(** [importlib.reload(module)]: the module's code is executed again; the
    result is the module's attributes afterwards, or the exception that
    the code raised. *)
Variable reload_module : string -> result (gmap string constructor).

(** With [reload] the module is imported, then reloaded, and the
    attribute is read from the module as the reload left it (the second
    [import_module] finds that same module object). *)
Definition get_obj_from_str (s : cfg_value) (reload : bool)
  : result constructor :=
  match s with
  | CStr path =>
      match PyStr.rsplit_dot path with
      | None =>
          Raise (Exn ValueError "not enough values to unpack (expected 2, got 1)")
      | Some (module, cls) =>
          if reload then
            try! _ := import_module module in
            try! m := reload_module module in
            getattr m cls
          else
            try! m := import_module module in
            getattr m cls
      end
  | _ => Raise (Exn AttributeError "object has no attribute 'rsplit'")
  end.

(** [config["target"]] *)
Definition getitem_target (c : config) : result cfg_value :=
  match c with
  | ConfigStr _ => Raise (Exn TypeError "string indices must be integers")
  | ConfigDict d =>
      match d !! "target" with
      | Some v => Ok v
      | None => Raise (Exn KeyError "'target'")
      end
  end.

(** [config.get("params", dict())], then unpacked by [**]. *)
Definition get_params (c : config) : result (gmap string V) :=
  match c with
  | ConfigStr _ => Raise (Exn AttributeError "'str' object has no attribute 'get'")
  | ConfigDict d =>
      match d !! "params" with
      | None => Ok ∅
      | Some (CMapping kw) => Ok kw
      | Some _ => Raise (Exn TypeError "argument after ** must be a mapping")
      end
  end.

(** Following the spec's words, not the code: the record lacks a
    [target] key.  A string has no keys at all. *)
Definition lacks_target_key (c : config) : Prop :=
  match c with
  | ConfigStr _ => True
  | ConfigDict d => d !! "target" = None
  end.

End Instantiate.

Definition first_stage_marker : string := "__is_first_stage__".
Definition unconditional_marker : string := "__is_unconditional__".
Definition missing_target : exn :=
  Exn KeyError "Expected key `target` to instantiate.".

(** A Python value is [None] or an object of [Obj]: the callables that
    [target] may name return either, and the function returns whatever
    the call returns. *)
Definition instantiate_from_config {V Obj : Type}
    (modules : gmap string (gmap string (@constructor V (option Obj))))
    (reload_module : string -> result (gmap string (@constructor V (option Obj))))
    (c : @config V) : result (option Obj) :=
  if negb (has_target c) then
    if config_eq_str c first_stage_marker then Ok None
    else if config_eq_str c unconditional_marker then Ok None
    else Raise missing_target
  else
    try! target := getitem_target c in
    try! cls := get_obj_from_str modules reload_module target false in
    try! params := get_params c in
    cls params.

End Config.

(** ** PIL images and [resize_image] *)

Module PIL.

(** Resampling filters: the one the code names, and the library default
    used when [resize] is called without one. *)
Inductive filter : Type := LANCZOS | DefaultFilter.

(** Pixel content is kept symbolically, as the PIL calls that made it. *)
Inductive pixels : Type :=
  | Source (tag : nat)       (* pixel data supplied by the caller *)
  | Transparent              (* a fresh [Image.new] canvas *)
  | Resized (f : filter) (src : pixels) (box : option (Z * Z * Z * Z))
  | Pasted (base over : pixels) (over_size : Z * Z) (at_ : Z * Z).

Record image : Type :=
  Image { width : Z; height : Z; mode : string; px : pixels }.

(** Image objects live in a heap; a reference is an index into it, so
    two references denote the identical object iff they are equal. *)
Abbreviation ref := nat.
Abbreviation heap := (list image).

Definition alloc (im : image) : M heap ref :=
  fun h => (Ok (length h), h ++ [im]).

Definition deref (r : ref) : M heap image :=
  fun h => match h !! r with
           | Some im => (Ok im, h)
           | None => (Raise (Exn AttributeError "dangling reference"), h)
           end.

(** [Image.new(mode, size)] *)
Definition Image_new (mode : string) (size : Z * Z) : M heap ref :=
  alloc (Image (fst size) (snd size) mode Transparent).

(** [im.resize(size, resample=f, box=box)]: a new image of the requested
    size.  PIL's own argument checks are not modelled. *)
Definition resize (im : ref) (size : Z * Z) (f : filter)
    (box : option (Z * Z * Z * Z)) : M heap ref :=
  do! src <- deref im;
  alloc (Image (fst size) (snd size) (mode src) (Resized f (px src) box)).

(** [dst.paste(src, box=at_)]: updates [dst] in place; its size stays. *)
Definition paste (dst src : ref) (at_ : Z * Z) : M heap unit :=
  do! d <- deref dst;
  do! s <- deref src;
  modify (fun h : heap =>
    <[dst := Image (width d) (height d) (mode d)
               (Pasted (px d) (px s) (width s, height s) at_)]> h).

(** The size of what was pasted last onto an image, if anything. *)
Definition interior (im : image) : option (Z * Z) :=
  match px im with
  | Pasted _ _ sz _ => Some sz
  | _ => None
  end.

End PIL.

Module Resize.
Import PIL.

(** [a // b] on integers. *)
Definition floordiv (a b : Z) : result Z :=
  if b =? 0 then Raise (Exn ZeroDivisionError "integer division or modulo by zero")
  else Ok (a / b).

Definition resize_image (im : ref) (width height : Z) (mode : string)
  : M heap ref :=
  do! src <- deref im;
  if (PIL.width src =? width) && (PIL.height src =? height) then ret im
  else if String.eqb mode "stretch" then
    resize im (width, height) LANCZOS None
  else if String.eqb mode "pad" then
    do! ratio <- lift (PyFloat.int_truediv width height);
    do! src_ratio <- lift (PyFloat.int_truediv (PIL.width src) (PIL.height src));
    do! src_w <- lift (if PyFloat.ltb src_ratio ratio then Ok width
                       else floordiv (PIL.width src * height) (PIL.height src));
    do! src_h <- lift (if PyFloat.leb ratio src_ratio then Ok height
                       else floordiv (PIL.height src * width) (PIL.width src));
    do! resized <- resize im (src_w, src_h) LANCZOS None;
    do! res <- Image_new "RGBA" (width, height);
    paste res resized (width / 2 - src_w / 2, height / 2 - src_h / 2) ;;;
    ret res
  else if String.eqb mode "repeat" then
    do! ratio <- lift (PyFloat.int_truediv width height);
    do! src_ratio <- lift (PyFloat.int_truediv (PIL.width src) (PIL.height src));
    do! src_w <- lift (if PyFloat.ltb ratio src_ratio then Ok width
                       else floordiv (PIL.width src * height) (PIL.height src));
    do! src_h <- lift (if PyFloat.leb src_ratio ratio then Ok height
                       else floordiv (PIL.height src * width) (PIL.width src));
    do! resized <- resize im (src_w, src_h) LANCZOS None;
    do! res <- Image_new "RGBA" (width, height);
    paste res resized (width / 2 - src_w / 2, height / 2 - src_h / 2) ;;;
    do! r <- deref resized;
    (if PyFloat.ltb ratio src_ratio then
       let fill_height := height / 2 - src_h / 2 in
       do! top <- resize resized (width, fill_height) DefaultFilter
                    (Some (0, 0, width, 0));
       paste res top (0, 0) ;;;
       do! bottom <- resize resized (width, fill_height) DefaultFilter
                       (Some (0, PIL.height r, width, PIL.height r));
       paste res bottom (0, fill_height + src_h)
     else if PyFloat.ltb src_ratio ratio then
       let fill_width := width / 2 - src_w / 2 in
       do! left_fill <- resize resized (fill_width, height) DefaultFilter
                     (Some (0, 0, 0, height));
       paste res left_fill (0, 0) ;;;
       do! right_fill <- resize resized (fill_width, height) DefaultFilter
                      (Some (PIL.width r, 0, PIL.width r, height));
       paste res right_fill (fill_width + src_w, 0)
     else ret tt) ;;;
    ret res
  else
    throw (Exn UnboundLocalError
      "local variable 'res' referenced before assignment").

(** A 100 x 100 source image, alone in the heap. *)
Definition square_source : heap := [Image 100 100 "RGB" (Source 0)].

End Resize.

(** ** [parallel_data_prefetch] *)

Module Prefetch.

(** What the coordinator does that can be observed from outside. *)
Inductive event : Type :=
  | Print (line : string)
  | PrintElapsed                            (* the closing line with the wall-clock time *)
  | WorkerCreated (os_process : bool) (idx : nat)
  | WorkerStarted (idx : nat)
  | WorkerJoined (idx : nat).

Abbreviation trace := (list event).

Definition emit (e : event) : M trace unit := modify (fun t => t ++ [e]).

Definition dict_warning : string :=
  "WARNING:" +:+ dquote +:+ "data" +:+ dquote +:+
  " argument passed to parallel_data_prefetch is a dict: Using only its values and disregarding keys.".

Definition not_iterable_msg (type_name : string) : string :=
  "The data, that shall be processed parallel has to be either an np.ndarray or an Iterable, but is actually <class '"
  +:+ type_name +:+ "'>.".

(** [range(0, stop, step)] for [stop >= 0]. *)
Definition range0 (stop step : Z) : result (list Z) :=
  if step =? 0 then Raise (Exn ValueError "range() arg 3 must not be zero")
  else if step <? 0 then Ok []
  else Ok (map (fun j => Z.of_nat j * step) (seq 0 (Z.to_nat ((stop + step - 1) / step)))).

Section Prefetch.
(** [K]: dict keys; [A]: elements of [data]; [B]: elements of what
    [func] returns. *)
Context {K A B : Type}.

(** The [data] argument, by what the [isinstance] tests see.  An
    [NdArray xs] is an array of one or more dimensions whose items along
    the first axis are [xs]. *)
Inductive pydata : Type :=
  | NdArray (xs : list A)
  | PyList (xs : list A)
  | PyDict (items : list (K * A))
  | PyIterable (xs : list A)          (* tuple, range, generator, ... *)
  | PyObject (type_name : string).    (* neither array nor iterable *)

(** [data] after conversion, and each part handed to a worker. *)
Inductive batch : Type :=
  | Arr (xs : list A)
  | Lst (xs : list A).

Definition items_of (b : batch) : list A :=
  match b with Arr xs | Lst xs => xs end.

(** [arguments[i]] without the shared [func] and queue. *)
Record task : Type := Task { part : batch; idx : nat; idx_to_fn : bool }.

Inductive output : Type :=
  | OutArray (xs : list B)
  | OutList (xs : list B)
  | OutRaw (parts : list (list B)).

(** [func(part)] or [func(part, worker_id=idx)]. *)
Variable func : batch -> option nat -> list B.

(** [np.asarray(data)] or [list(data)].  [list] keeps the elements of any
    iterable; [np.asarray] is the identity on an array, and on other data
    keeps the elements as first-axis items only when numpy can lay them
    out as one regular array, which this model does not decide: the
    properties of the array path below are stated for array input. *)
Definition convert (xs : list A) (target_data_type : string) : batch :=
  if String.eqb target_data_type "ndarray" then Arr xs else Lst xs.

(** The checks and conversions at the head of the function. *)
Definition validate (data : pydata) (target_data_type : string)
  : M trace batch :=
  match data with
  | NdArray xs =>
      if String.eqb target_data_type "list" then
        throw (Exn ValueError "list expected but function got ndarray.")
      else ret (convert xs target_data_type)
  | PyDict items =>
      emit (Print dict_warning) ;;;
      ret (convert (map snd items) target_data_type)
  | PyList xs | PyIterable xs => ret (convert xs target_data_type)
  | PyObject ty => throw (Exn TypeError (not_iterable_msg ty))
  end.

(** [np.array_split(data, n)]: [len % n] parts of [len // n + 1]
    elements, then parts of [len // n] elements. *)
Fixpoint split_sizes (sizes : list nat) (xs : list A) : list (list A) :=
  match sizes with
  | [] => []
  | k :: rest => take k xs :: split_sizes rest (drop k xs)
  end.

Definition array_split (xs : list A) (n_proc : Z) : result (list (list A)) :=
  if n_proc <=? 0 then
    Raise (Exn ValueError "number sections must be larger than 0.")
  else
    let len := Z.of_nat (length xs) in
    let each := Z.to_nat (len / n_proc) in
    let extras := Z.to_nat (len mod n_proc) in
    Ok (split_sizes (replicate extras (S each)
                       ++ replicate (Z.to_nat n_proc - extras) each) xs).

(** The chunk size of the list path.  For [len(data)] below 2^52 the
    float expression [int(len(data) / n_proc + 1)] is the truncation
    of the exact rational [(len + n_proc) / n_proc]. *)
Definition step_of (len n_proc : Z) : result Z :=
  if n_proc =? 0 then
    Raise (Exn ZeroDivisionError "integer division or modulo by zero")
  else if negb (len mod n_proc =? 0) then Ok (Z.quot (len + n_proc) n_proc)
  else Ok (Z.quot len n_proc).

(** [data[i : i + step]] for [i >= 0] and [step > 0]. *)
Definition slice (xs : list A) (i step : Z) : list A :=
  take (Z.to_nat step) (drop (Z.to_nat i) xs).

Definition enumerate_tasks (parts : list batch) (use_worker_id : bool)
  : list task :=
  imap (fun i p => Task p i use_worker_id) parts.

(** The list [arguments]. *)
Definition make_arguments (data : batch) (n_proc : Z)
    (target_data_type : string) (use_worker_id : bool) : result (list task) :=
  if String.eqb target_data_type "ndarray" then
    try! parts := array_split (items_of data) n_proc in
    Ok (enumerate_tasks (map Arr parts) use_worker_id)
  else
    let xs := items_of data in
    let len := Z.of_nat (length xs) in
    try! step := step_of len n_proc in
    try! starts := range0 len step in
    Ok (enumerate_tasks (map (fun i => Lst (slice xs i step)) starts)
          use_worker_id).

(** [for i in range(n_proc): p = proc(..., args=arguments[i])],
    from index [i] on, [count] workers to go. *)
Fixpoint create_workers (os_process : bool) (arguments : list task)
    (i count : nat) : M trace (list task) :=
  match count with
  | O => ret []
  | S count' =>
      match arguments !! i with
      | None => throw (Exn IndexError "list index out of range")
      | Some a =>
          emit (WorkerCreated os_process i) ;;;
          do! ps <- create_workers os_process arguments (S i) count';
          ret (a :: ps)
      end
  end.

(** [_do_parallel_data_prefetch]: what a worker puts on the queue
    before its ["Done"]. *)
Definition _do_parallel_data_prefetch (t : task) : nat * list B :=
  (idx t, func (part t) (if idx_to_fn t then Some (idx t) else None)).

(** Starting the workers and draining the queue, when every worker
    runs to completion: whatever the arrival order, each result ends
    up in [gather_res] at its worker's index. *)
Definition run_workers (workers : list task) (n_proc : nat)
  : M trace (list (list B)) :=
  modify (fun t => t ++ imap (fun i _ => WorkerStarted i) workers) ;;;
  let gather_res :=
    foldl (fun g w => let '(i, r) := _do_parallel_data_prefetch w in <[i := r]> g)
          (replicate n_proc []) workers in
  modify (fun t => t ++ imap (fun i _ => WorkerJoined i) workers) ;;;
  emit PrintElapsed ;;;
  ret gather_res.

Definition parallel_data_prefetch (data : pydata) (n_proc : Z)
    (target_data_type : string) (cpu_intensive use_worker_id : bool)
  : M trace output :=
  do! data' <- validate data target_data_type;
  do! arguments <- lift (make_arguments data' n_proc target_data_type use_worker_id);
  do! processes <- create_workers cpu_intensive arguments 0 (Z.to_nat n_proc);
  emit (Print "Start prefetching...") ;;;
  do! gather_res <- run_workers processes (Z.to_nat n_proc);
  if String.eqb target_data_type "ndarray" then ret (OutArray (concat gather_res))
  else if String.eqb target_data_type "list" then ret (OutList (concat gather_res))
  else ret (OutRaw gather_res).

(** A run that started a worker left a [WorkerStarted] in the trace. *)
Definition is_start (e : event) : bool :=
  match e with WorkerStarted _ => true | _ => false end.

(** [ceil(len / n)] for positive [n]. *)
Definition ceil_div (len n : Z) : Z := (len + n - 1) / n.

(** Slicing [xs] into consecutive chunks of [size] elements (the last
    one possibly shorter). *)
Definition chunks (xs : list A) (size : Z) : list (list A) :=
  map (fun j => take (Z.to_nat size) (drop (j * Z.to_nat size) xs))
      (seq 0 (Z.to_nat (ceil_div (Z.of_nat (length xs)) size))).

End Prefetch.

(** An identity worker function, for examples. *)
Definition identity_func (b : @batch Z) (worker_id : option nat) : list Z :=
  items_of b.

End Prefetch.

(** ** The model loader *)

Module Loader.

Inductive io_event : Type :=
  | ReadConfig (path : string)
  | ImportModule (name : string)
  | ReadCheckpoint (path : string).

Section Load.
(** [V]: constructor argument values; [P]: parameter tensors. *)
Context {V P : Type}.

Record model : Type := Model {
  class_path : string;
  kwargs : gmap string V;
  parameters : gmap string P;
  half_precision : bool;
  on_cuda : bool;
  training : bool
}.

(** The [model] entry of a configuration file. *)
Record model_cfg : Type :=
  ModelCfg { target : option string; params : option (gmap string V) }.
Record yaml : Type := Yaml { model_entry : option model_cfg }.

(** The process state: the registry [models] and the file and import
    accesses made so far. *)
Record world : Type :=
  World { models : gmap string model; io_log : list io_event }.

(** The surroundings: the table imported from [config], the
    configuration files by path, the checkpoint files by path (their
    [state_dict] entry), the importable classes, and whether a CUDA
    device is there. *)
Variable checkpoint_files : gmap string string.
Variable config_files : gmap string yaml.
Variable checkpoints : gmap string (option (gmap string P)).
Variable modules : gmap string (gmap string (gmap string V -> result model)).
Variable cuda_available : bool.

Definition log (e : io_event) : M world unit :=
  modify (fun w => World (models w) (io_log w ++ [e])).

Definition no_checkpoint_msg (name : string) : string :=
  "no checkpoint file path specified for model " +:+ dquote +:+ name +:+ dquote.

(** [os.path.join(os.path.dirname(__file__), 'configs', '%s.yaml' % name)],
    relative to the loader's directory. *)
Definition config_path (name : string) : string :=
  "configs/" +:+ name +:+ ".yaml".

Definition OmegaConf_load (path : string) : M world yaml :=
  log (ReadConfig path) ;;;
  match config_files !! path with
  | Some y => ret y
  | None => throw (Exn FileNotFoundError path)
  end.

Definition torch_load (path : string) : M world (option (gmap string P)) :=
  log (ReadCheckpoint path) ;;;
  match checkpoints !! path with
  | Some c => ret c
  | None => throw (Exn FileNotFoundError path)
  end.

(** [model.load_state_dict(sd, strict=False)]: entries the model has
    are overwritten, the others are ignored. *)
Definition load_state_dict (m : model) (sd : gmap string P) : model :=
  Model (class_path m) (kwargs m)
        (map_imap (fun k old => Some (default old (sd !! k))) (parameters m))
        (half_precision m) (on_cuda m) (training m).

Definition load (name : string) : M world model :=
  match checkpoint_files !! name with
  | None => throw (Exn BaseException (no_checkpoint_msg name))
  | Some checkpoint_path =>
      do! config <- OmegaConf_load (config_path name);
      do! mcfg <- lift (match model_entry config with
                        | Some c => Ok c
                        | None => Raise (Exn AttributeError "model")
                        end);
      do! tgt <- lift (match target mcfg with
                       | Some t => Ok t
                       | None => Raise (Exn AttributeError "target")
                       end);
      do! (modulename, classname) <-
            lift (match PyStr.rsplit_dot tgt with
                  | Some p => Ok p
                  | None => Raise (Exn ValueError
                              "not enough values to unpack (expected 2, got 1)")
                  end);
      log (ImportModule modulename) ;;;
      do! module <- lift (Config.import_module modules modulename);
      do! cls <- lift (Config.getattr module classname);
      do! model <- lift (cls (default ∅ (params mcfg)));
      do! checkpoint <- torch_load checkpoint_path;
      do! sd <- lift (match checkpoint with
                      | Some sd => Ok sd
                      | None => Raise (Exn KeyError "'state_dict'")
                      end);
      let model := load_state_dict model sd in
      let model := Model (class_path model) (kwargs model) (parameters model)
                         true (on_cuda model) (training model) in
      do! model <- lift (if cuda_available then
                           Ok (Model (class_path model) (kwargs model)
                                     (parameters model) (half_precision model)
                                     true (training model))
                         else Raise (Exn RuntimeError "No CUDA GPUs are available"));
      let model := Model (class_path model) (kwargs model) (parameters model)
                         (half_precision model) (on_cuda model) false in
      modify (fun w => World (<[name := model]> (models w)) (io_log w)) ;;;
      ret model
  end.

End Load.

(** A small installation: one known model name, its configuration file
    and checkpoint, and one importable class. *)
Definition demo_checkpoint_files : gmap string string :=
  {[ "sd-v1" := "weights/sd-v1.ckpt" ]}.
Definition demo_class (kw : gmap string Z) : result (@model Z Z) :=
  Ok (Model "ldm.LatentDiffusion" kw {[ "w" := 0 ]} false false true).
Definition demo_modules
  : gmap string (gmap string (gmap string Z -> result (@model Z Z))) :=
  {[ "ldm" := {[ "LatentDiffusion" := demo_class ]} ]}.
Definition demo_config_files : gmap string (@yaml Z) :=
  {[ "configs/sd-v1.yaml" :=
       Yaml (Some (ModelCfg (Some "ldm.LatentDiffusion") (Some {[ "dim" := 4 ]}))) ]}.
Definition demo_checkpoints : gmap string (option (gmap string Z)) :=
  {[ "weights/sd-v1.ckpt" := Some {[ "w" := 42; "extra" := 1 ]} ]}.
Definition demo_world : @world Z Z := World ∅ [].
Definition demo_load (name : string) : M (@world Z Z) (@model Z Z) :=
  load demo_checkpoint_files demo_config_files demo_checkpoints
       demo_modules true name.

End Loader.

(** ** [append_zero], [to_d], [ismap] and [isimage] *)

Module TorchOps.
Import Tensor.

(** A tensor whose element list has the length its shape announces. *)
Definition well_formed {A} (t : tensor A) : Prop :=
  length (data t) = numel (shape t).

Section Cat.
Context {A : Type}.
(** The zero of the element type. *)
Variable zero : A.

(** [x.new_zeros(size)] *)
Definition new_zeros (size : list nat) : tensor A :=
  Tensor size (replicate (numel size) zero).

(** The one-dimensional empty tensor, which [torch.cat] skips. *)
Definition legacy_empty (t : tensor A) : bool :=
  bool_decide (shape t = [0%nat]).

(** [torch.cat(ts)] along dimension 0: no tensor may be zero-dimensional,
    tensors of shape [(0,)] are skipped, and the others must agree in
    every dimension but the first. *)
Definition cat (ts : list (tensor A)) : result (tensor A) :=
  match ts with
  | [] => Raise (Exn RuntimeError "torch.cat(): expected a non-empty list of Tensors")
  | _ :: _ =>
      if existsb (fun t => (ndim t =? 0)%nat) ts then
        Raise (Exn RuntimeError "zero-dimensional tensor cannot be concatenated")
      else
        match List.filter (fun t => negb (legacy_empty t)) ts with
        | [] => Ok (Tensor [0%nat] [])
        | t0 :: rest =>
            if forallb (fun t => bool_decide (tail (shape t) = tail (shape t0))) rest
            then Ok (Tensor (sum_list (map (fun t => hd 0%nat (shape t)) (t0 :: rest))
                               :: tail (shape t0))
                            (concat (map data (t0 :: rest))))
            else Raise (Exn RuntimeError
                   "Sizes of tensors must match except in dimension 0")
        end
  end.

Definition append_zero (x : tensor A) : result (tensor A) :=
  cat [x; new_zeros [1%nat]].

(** torch's broadcasting [-] and [/] on tensors. *)
Variable tensor_sub : tensor A -> tensor A -> result (tensor A).
Variable tensor_div : tensor A -> tensor A -> result (tensor A).

Definition to_d (x sigma denoised : tensor A) : result (tensor A) :=
  try! diff := tensor_sub x denoised in
  try! sigma' := append_dims sigma (Z.of_nat (ndim x)) in
  tensor_div diff sigma'.

End Cat.

(** What [ismap] and [isimage] can be handed: a [torch.Tensor], of which
    only the shape matters, or anything else. *)
Inductive pyobj : Type :=
  | TensorObj (shape : list nat)
  | OtherObj.

Definition ismap (x : pyobj) : bool :=
  match x with
  | OtherObj => false
  | TensorObj sh => (length sh =? 4)%nat && (3 <? nth 1 sh 0)%nat
  end.

Definition isimage (x : pyobj) : bool :=
  match x with
  | OtherObj => false
  | TensorObj sh =>
      (length sh =? 4)%nat && ((nth 1 sh 0 =? 3)%nat || (nth 1 sh 0 =? 1)%nat)
  end.

End TorchOps.

(** ** [log_txt_as_img] *)

Module LogText.

Definition newline : ascii := "010"%char.

(** [sep.join(parts)] on strings as character lists. *)
Fixpoint join (sep : list ascii) (parts : list (list ascii)) : list ascii :=
  match parts with
  | [] => []
  | p :: rest =>
      match rest with
      | [] => p
      | _ :: _ => p ++ sep ++ join sep rest
      end
  end.

(** [nc = int(40 * (wh[0] / 256))].  Dividing by 256 and multiplying by 40
    are exact in binary64 for widths below 2^47, so this is the truncated
    quotient. *)
Definition chars_per_line (w : Z) : Z := Z.quot (40 * w) 256.

(** The text handed to [draw.text]: the caption cut every [nc]
    characters, the pieces joined by newlines. *)
Definition caption_lines (w : Z) (caption : list ascii) : result (list ascii) :=
  let nc := chars_per_line w in
  try! starts := Prefetch.range0 (Z.of_nat (length caption)) nc in
  Ok (join [newline] (map (fun start => Prefetch.slice caption start nc) starts)).

(** A white RGB canvas of the given size, with the text drawn on it in
    black from the top-left corner, if any was drawn. *)
Record canvas : Type := Canvas { canvas_size : Z * Z; canvas_text : option (list ascii) }.

(** The returned tensor: its shape and, per batch entry, the canvas whose
    pixels it holds (as [pixel / 127.5 - 1.0], channel first). *)
Record txt_tensor : Type := TxtTensor { txt_shape : list Z; txt_items : list canvas }.

Definition skip_notice : string := "Cant encode string for logging. Skipping.".

(** The size check of [Image.new("RGB", wh, color="white")]: PIL refuses
    a negative width or height. *)
Definition check_size (wh : Z * Z) : result unit :=
  if (fst wh <? 0) || (snd wh <? 0) then
    Raise (Exn ValueError "Width and height must be >= 0")
  else Ok tt.

Section LogTxt.
(** Whether [draw.text] can encode a text with the font; the font file
    itself is taken to be present. *)
Variable encodable : list ascii -> bool.

(** The body of the [for bi in range(b)] loop, over the console output. *)
Fixpoint render_all (wh : Z * Z) (xc : list (list ascii)) : M (list string) (list canvas) :=
  match xc with
  | [] => ret []
  | caption :: rest =>
      do! _ <- lift (check_size wh);
      do! lines <- lift (caption_lines (fst wh) caption);
      do! drawn <- (if encodable lines then ret (Some lines)
                    else modify (fun out => out ++ [skip_notice]) ;;; ret None);
      do! txts <- render_all wh rest;
      ret (Canvas wh drawn :: txts)
  end.

Definition log_txt_as_img (wh : Z * Z) (xc : list (list ascii)) : M (list string) txt_tensor :=
  do! txts <- render_all wh xc;
  match txts with
  | [] => throw (Exn ValueError "need at least one array to stack")
  | _ :: _ =>
      ret (TxtTensor [Z.of_nat (length txts); 3; snd wh; fst wh] txts)
  end.

End LogTxt.

End LogText.

(** ** Outcomes of [resize_image] *)

Module ResizeSpec.
Import PIL.

(** What a call can leave behind: the heap it found followed by the
    objects it created; and when it returns a reference, that reference
    denotes an image of the requested size which is either the input
    itself (nothing created) or one of the new objects. *)
Definition outcome_ok (h : heap) (im : ref) (w ht : Z) (r : result ref) (h' : heap) : Prop :=
  exists l, h' = h ++ l /\
    forall res, r = Ok res ->
      exists img, h' !! res = Some img /\ width img = w /\ height img = ht /\
                  ((res = im /\ l = []) \/ (length h <= res)%nat).

End ResizeSpec.

(** ** Complete runs of [parallel_data_prefetch] *)

Module PrefetchSpec.
Import Prefetch.

(** What a run with [n] workers prints and does when nothing goes wrong:
    every worker is created, then all are started, then all are joined. *)
Definition complete_run (cpu_intensive : bool) (n : nat) : trace :=
  map (WorkerCreated cpu_intensive) (seq 0 n)
  ++ [Print "Start prefetching..."]
  ++ map WorkerStarted (seq 0 n)
  ++ map WorkerJoined (seq 0 n)
  ++ [PrintElapsed].

(** What the worker at index [i] returns for its part. *)
Definition worker_result {A B} (func : @batch A -> option nat -> list B)
    (use_worker_id : bool) (wrap : list A -> @batch A) (i : nat) (p : list A) : list B :=
  func (wrap p) (if use_worker_id then Some i else None).


End PrefetchSpec.

(** ** Outcomes of [load] *)

Module LoaderSpec.
Import Loader.

(** The file and import accesses of a complete [load], in order. *)
Definition full_log (name modulename checkpoint_path : string) : list io_event :=
  [ReadConfig (config_path name); ImportModule modulename;
   ReadCheckpoint checkpoint_path].

(** The module that [config.model.target.rsplit('.', 1)] names. *)
Definition imported_module {V} (config : @yaml V) : option string :=
  match model_entry config with
  | Some mcfg =>
      match target mcfg with
      | Some tgt =>
          match PyStr.rsplit_dot tgt with
          | Some (modulename, _) => Some modulename
          | None => None
          end
      | None => None
      end
  | None => None
  end.

(** The accesses that the surroundings prescribe for [load name]: none
    for a name without a checkpoint entry; otherwise the configuration
    file of [name], then, when that file exists and its [model.target] is
    a dotted path, the module the path names and the checkpoint file
    listed for [name]. *)
Definition expected_log {V} (checkpoint_files : gmap string string)
    (config_files : gmap string (@yaml V)) (name : string) : list io_event :=
  match checkpoint_files !! name with
  | None => []
  | Some checkpoint_path =>
      ReadConfig (config_path name) ::
      match config_files !! config_path name with
      | Some config =>
          match imported_module config with
          | Some modulename =>
              [ImportModule modulename; ReadCheckpoint checkpoint_path]
          | None => []
          end
      | None => []
      end
  end.

(** How [load name] may leave the process, started in [w]: either it
    raised, the registry is as it was and the accesses made are an initial
    part of [expected_log], a non-empty one when [name] has a checkpoint
    entry; or it returned a model in half precision, on the CUDA device
    and in inference mode, which is now registered under [name], after all
    three accesses. *)
Definition load_outcome {V P} (checkpoint_files : gmap string string)
    (config_files : gmap string (@yaml V))
    (name : string) (w : @world V P) (r : result (@model V P)) (w' : @world V P)
  : Prop :=
  (exists e evs rest,
     r = Raise e /\ models w' = models w /\
     io_log w' = io_log w ++ evs /\
     expected_log checkpoint_files config_files name = evs ++ rest /\
     (checkpoint_files !! name <> None -> evs <> [])) \/
  (exists m config modulename path,
     r = Ok m /\ checkpoint_files !! name = Some path /\
     config_files !! config_path name = Some config /\
     imported_module config = Some modulename /\
     models w' = (<[name := m]> (models w)) /\
     io_log w' = io_log w ++ full_log name modulename path /\
     expected_log checkpoint_files config_files name
     = full_log name modulename path /\
     half_precision m = true /\ on_cuda m = true /\ training m = false).

End LoaderSpec.

(** ** Dotted paths *)

Module PathSpec.

(** Whether a string has a dot in it. *)
Fixpoint has_dot (s : string) : bool :=
  match s with
  | EmptyString => false
  | String c rest => Ascii.eqb c "." || has_dot rest
  end.

(** The dotted path [module.cls]. *)
Definition dotted (module cls : string) : string := module +:+ "." +:+ cls.

End PathSpec.

(** ** Example instances *)

Module Examples.
Import Tensor.

(** An elementwise operation on integer tensors of equal shape (the
    simplest case of broadcasting). *)
Definition same_shape_op (op : Z -> Z -> Z) (a b : tensor Z) : result (tensor Z) :=
  if bool_decide (shape a = shape b) then
    Ok (Tensor (shape a) (zip_with op (data a) (data b)))
  else Raise (Exn RuntimeError "The size of tensor a must match the size of tensor b").

(** An import system with one module holding a class (which builds the
    number of its arguments) and a procedure that returns [None]. *)
Definition demo_class (kw : gmap string Z) : result (option Z) :=
  Ok (Some (Z.of_nat (size kw))).
Definition demo_procedure (kw : gmap string Z) : result (option Z) := Ok None.
Definition demo_attrs : gmap string (@Config.constructor Z (option Z)) :=
  {[ "Cls" := demo_class; "enable" := demo_procedure ]}.
Definition demo_modules : gmap string (gmap string (@Config.constructor Z (option Z))) :=
  {[ "pkg.mod" := demo_attrs ]}.
Definition demo_reload (name : string)
  : result (gmap string (@Config.constructor Z (option Z))) :=
  Config.import_module demo_modules name.

(** An encoder that refuses texts containing the character [?]. *)
Definition ascii_only (text : list ascii) : bool :=
  forallb (fun c => negb (Ascii.eqb c "?")) text.

End Examples.

(** * Properties *)

(** ** Monad laws used below *)

Lemma bind_ret {S A B} (a : A) (k : A -> M S B) (s : S) :
  bind (ret a) k s = k a s.
Proof. reflexivity. Qed.

Lemma bind_throw {S A B} (e : exn) (k : A -> M S B) (s : S) :
  bind (throw e) k s = (Raise e, s).
Proof. reflexivity. Qed.

Lemma bind_ok {S A B} (m : M S A) (k : A -> M S B) (s s' : S) (a : A) :
  m s = (Ok a, s') -> bind m k s = k a s'.
Proof. intros H. unfold bind. now rewrite H. Qed.

Lemma bind_raise {S A B} (m : M S A) (k : A -> M S B) (s s' : S) (e : exn) :
  m s = (Raise e, s') -> bind m k s = (Raise e, s').
Proof. intros H. unfold bind. now rewrite H. Qed.

(** ** [resize_image] *)

Section ResizeProperties.
Import PIL Resize.

Lemma deref_lookup (h : heap) (r : ref) (im : image) :
  h !! r = Some im -> deref r h = (Ok im, h).
Proof. intros H. unfold deref. now rewrite H. Qed.

(** C1, evaluated.  Asked to pad a 100 x 100 image into a 200 x 100 box,
    [resize_image] returns a canvas of exactly 200 x 100 onto which it
    has pasted the source resampled to 200 x 200, at offset (0, -50):
    the interior is taller than the canvas, so 50 rows are cut off at
    the top and at the bottom. *)
Theorem C1_pad_crops_wide_target :
  exists h' canvas,
    resize_image 0%nat 200 100 "pad" square_source = (Ok 2%nat, h') /\
    h' !! 2%nat = Some canvas /\
    width canvas = 200 /\ height canvas = 100 /\
    interior canvas = Some (200, 200) /\
    px canvas = Pasted Transparent (Resized LANCZOS (Source 0) None)
                       (200, 200) (0, -50).
Proof.
  eexists _, _. split; [vm_compute; reflexivity |].
  repeat split.
Qed.

(** The sibling mode ['repeat'] makes the opposite comparisons and, on
    the same input, resamples the source to 100 x 100, which fits. *)
Lemma repeat_fits_wide_target :
  exists h' resized,
    fst (resize_image 0%nat 200 100 "repeat" square_source) = Ok 2%nat /\
    snd (resize_image 0%nat 200 100 "repeat" square_source) = h' /\
    h' !! 1%nat = Some resized /\
    width resized = 100 /\ height resized = 100.
Proof. eexists _, _. vm_compute. repeat split. Qed.

(** Whenever ['pad'] returns, what it returns is a fresh canvas of
    exactly the requested size. *)
Lemma pad_canvas_size (h h' : heap) (im res : ref) (w ht : Z) :
  resize_image im w ht "pad" h = (Ok res, h') ->
  res = im \/
  exists canvas, h' !! res = Some canvas /\ width canvas = w /\ height canvas = ht.
Proof.
  unfold resize_image, bind at 1. unfold deref at 1.
  destruct (h !! im) as [src|] eqn:Hsrc; [|discriminate].
  destruct ((width src =? w) && (height src =? ht)) eqn:Hsame.
  { intros [= <- <-]. now left. }
  cbn [String.eqb Ascii.eqb Bool.eqb].
  intros H. right. revert H.
  unfold bind at 1, lift at 1.
  destruct (PyFloat.int_truediv w ht) as [ratio|]; [|discriminate].
  unfold bind at 1, lift at 1.
  destruct (PyFloat.int_truediv (width src) (height src)) as [src_ratio|];
    [|discriminate].
  unfold bind at 1, lift at 1.
  destruct (if PyFloat.ltb src_ratio ratio then _ else _) as [src_w|];
    [|discriminate].
  unfold bind at 1, lift at 1.
  destruct (if PyFloat.leb ratio src_ratio then _ else _) as [src_h|];
    [|discriminate].
  unfold bind at 1, resize, bind at 1. rewrite (deref_lookup _ _ _ Hsrc).
  unfold alloc at 1. unfold bind at 1, Image_new, alloc at 1.
  unfold bind at 1, paste, bind at 1. unfold deref at 1.
  rewrite lookup_app_r by (rewrite length_app; cbn; lia).
  replace (length (h ++ [_]) - length (h ++ [_]))%nat with 0%nat by lia.
  cbn [lookup list_lookup fst snd].
  unfold bind at 1, deref at 1.
  rewrite lookup_app_l by (rewrite length_app; cbn; lia).
  rewrite lookup_app_r by lia.
  replace (length h - length h)%nat with 0%nat by lia.
  cbn [lookup list_lookup]. unfold modify, ret.
  intros [= <- <-].
  eexists. split.
  - apply list_lookup_insert_eq. rewrite !length_app. cbn. lia.
  - split; reflexivity.
Qed.

(** C4.  When the image already has the requested width and height,
    [resize_image] returns the very reference it was given, whatever the
    mode (even an unknown one), and the heap is left as it was: no image
    is created, none is written to, nothing is resampled. *)
Theorem C4_resize_image_same_size_is_identity
    (h : heap) (im : ref) (src : image) (mode : string) :
  h !! im = Some src ->
  resize_image im (width src) (height src) mode h = (Ok im, h).
Proof.
  intros Hsrc. unfold resize_image.
  rewrite (bind_ok _ _ _ _ _ (deref_lookup _ _ _ Hsrc)).
  now rewrite !Z.eqb_refl.
Qed.

Lemma C4_resize_image_same_size_witness :
  square_source !! 0%nat = Some (Image 100 100 "RGB" (Source 0)) /\
  resize_image 0%nat 100 100 "no such mode" square_source
    = (Ok 0%nat, square_source).
Proof.
  split; [reflexivity |].
  apply (C4_resize_image_same_size_is_identity square_source 0%nat
           (Image 100 100 "RGB" (Source 0)) "no such mode").
  reflexivity.
Defined.

End ResizeProperties.

(** ** [get_ancestral_step] *)

Section AncestralStepProperties.
Import PyFloat AncestralStep.

(** With [eta] zero (of either sign) nothing is computed: the result is
    [(sigma_to, 0.)], also when [sigma_from] is zero. *)
Lemma get_ancestral_step_eta_zero (sigma_from sigma_to : float) (s : bool) :
  get_ancestral_step sigma_from sigma_to (S754_zero s) = Ok (Real sigma_to, zero).
Proof. reflexivity. Qed.

(** The call of the example, evaluated in binary64. *)
Lemma get_ancestral_step_example :
  get_ancestral_step one half eta_default
  = Ok (Real (S754_finite false 4503599627370497 (-54)),
        S754_finite false 7800463371553962 (-54)).
Proof. vm_compute. reflexivity. Qed.

(** C2 as stated fails: at [(1.0, 0.5, 1.0)] the returned [sigma_down]
    is not 0.2887 to four decimal places. *)
Lemma C2_sigma_down_is_not_02887 :
  ~ (exists down up,
       get_ancestral_step one half eta_default = Ok (Real down, up) /\
       approx4 up (4330 # 10000) /\
       approx4 down (2887 # 10000)).
Proof.
  intros (down & up & H & _ & (v & Hv & Hle)).
  rewrite get_ancestral_step_example in H.
  injection H as <- <-.
  vm_compute in Hv. injection Hv as <-.
  vm_compute in Hle. apply Hle. reflexivity.
Qed.

(** C2, amended.  [get_ancestral_step(1.0, 0.5, 1.0)] returns
    [sigma_up = min(0.5, sqrt(0.25 * 0.75))], which is 0.4330 to four
    places, and [sigma_down = sqrt(0.25 - sigma_up^2)], which is 0.2500
    to four places (and within 10^-15 of 1/4); and for every
    [sigma_from] and [sigma_to], a zero [eta] gives exactly
    [(sigma_to, 0.)]. *)
Theorem C2_ancestral_step_example_and_eta_zero :
  (exists down up up2,
     get_ancestral_step one half eta_default = Ok (Real down, up) /\
     up = min2 half
            (SFsqrt prec emax (mul (of_dyadic 1 (-2)) (of_dyadic 3 (-2)))) /\
     pow2 up = Ok up2 /\
     Real down = pow_half (sub (of_dyadic 1 (-2)) up2) /\
     approx4 up (4330 # 10000) /\
     approx4 down (2500 # 10000) /\
     within (1 # 1000000000000000) down (1 # 4)) /\
  (forall sigma_from sigma_to s,
     get_ancestral_step sigma_from sigma_to (S754_zero s)
     = Ok (Real sigma_to, zero)).
Proof.
  split; [| apply get_ancestral_step_eta_zero].
  eexists _, _, _. split; [apply get_ancestral_step_example |].
  split; [vm_compute; reflexivity |].
  split; [vm_compute; reflexivity |].
  split; [vm_compute; reflexivity |].
  repeat split;
    (eexists; split; [vm_compute; reflexivity | vm_compute; discriminate]).
Qed.

End AncestralStepProperties.

(** ** [append_dims] *)

Section AppendDimsProperties.
Import Tensor.

Lemma prefix_app (s t : string) : String.prefix s (s +:+ t) = true.
Proof.
  induction s as [|c s IH].
  - now destruct t.
  - change (String c s +:+ t) with (String c (s +:+ t)). cbn [String.prefix].
    destruct (ascii_dec c c); [exact IH | congruence].
Qed.

Lemma contains_here (s t : string) : PyStr.contains s (s +:+ t) = true.
Proof.
  assert (Hunfold : forall h, String.prefix s h = true ->
                              PyStr.contains s h = true).
  { intros h Hp. destruct h; cbn [PyStr.contains]; now rewrite Hp. }
  apply Hunfold, prefix_app.
Qed.

Lemma contains_skip (a s h : string) :
  PyStr.contains s h = true -> PyStr.contains s (a +:+ h) = true.
Proof.
  intros H. induction a as [|c a IH]; [exact H |].
  change (String c a +:+ h) with (String c (a +:+ h)). cbn [PyStr.contains].
  rewrite IH. apply orb_true_r.
Qed.

Lemma append_dims_msg_reports (r : nat) (n : Z) :
  PyStr.contains (pretty r) (append_dims_msg r n) = true /\
  PyStr.contains (pretty n) (append_dims_msg r n) = true.
Proof.
  unfold append_dims_msg. split.
  - apply contains_skip, contains_here.
  - do 3 apply contains_skip. apply contains_here.
Qed.

(** C3.  For a tensor [x] of rank [r]: when [n >= r], [append_dims x n]
    returns a tensor of rank [n] whose shape is [x]'s followed by
    [n - r] ones and whose elements are [x]'s; when [n < r] it raises
    [ValueError] with a message in which both [r] and [n] appear. *)
Theorem C3_append_dims {A} (x : tensor A) (n : Z) :
  (Z.of_nat (ndim x) <= n ->
   exists y, append_dims x n = Ok y /\
             Z.of_nat (ndim y) = n /\
             take (ndim x) (shape y) = shape x /\
             drop (ndim x) (shape y) = replicate (Z.to_nat n - ndim x) 1%nat /\
             data y = data x) /\
  (n < Z.of_nat (ndim x) ->
   exists msg, append_dims x n = Raise (Exn ValueError msg) /\
               msg = "input has " +:+ pretty (ndim x)
                     +:+ " dims but target_dims is " +:+ pretty n
                     +:+ ", which is less" /\
               PyStr.contains (pretty (ndim x)) msg = true /\
               PyStr.contains (pretty n) msg = true).
Proof.
  unfold append_dims. split; intros H.
  - destruct (Z.ltb_spec (n - Z.of_nat (ndim x)) 0) as [Hlt|_]; [lia |].
    eexists. split; [reflexivity |].
    unfold index_ellipsis_none, ndim in *. cbn [shape data].
    replace (Z.to_nat (n - Z.of_nat (length (shape x))))
      with (Z.to_nat n - length (shape x))%nat by lia.
    repeat split.
    + rewrite length_app, length_replicate. lia.
    + now rewrite take_app_length.
    + now rewrite drop_app_length.
  - destruct (Z.ltb_spec (n - Z.of_nat (ndim x)) 0) as [_|Hge]; [| lia].
    eexists. split; [reflexivity |]. split; [reflexivity |].
    apply append_dims_msg_reports.
Qed.

Lemma C3_append_dims_witness :
  (exists y, append_dims (Tensor [2; 3]%nat [1; 2; 3; 4; 5; 6]) 4 = Ok y /\
             shape y = [2; 3; 1; 1]%nat /\ data y = [1; 2; 3; 4; 5; 6]) /\
  (exists msg, append_dims (Tensor [2; 3]%nat [1; 2; 3; 4; 5; 6]) 1
               = Raise (Exn ValueError msg) /\
               msg = "input has 2 dims but target_dims is 1, which is less").
Proof.
  split.
  - destruct (proj1 (C3_append_dims (Tensor [2; 3]%nat [1; 2; 3; 4; 5; 6]) 4))
      as (y & Hy & _ & _ & _ & _); [cbn; lia |].
    exists y. split; [exact Hy |].
    cbn in Hy. injection Hy as <-. split; reflexivity.
  - destruct (proj2 (C3_append_dims (Tensor [2; 3]%nat [1; 2; 3; 4; 5; 6]) 1))
      as (msg & Hm & Heq & _); [cbn; lia |].
    exists msg. split; [exact Hm |]. rewrite Heq. reflexivity.
Defined.

End AppendDimsProperties.

(** ** [default] *)

Section DefaultProperties.
Import Helpers.

(** C7 as stated fails: the class [int] is callable with no argument,
    yet [default(None, int)] returns [int] itself, not [int()]. *)
Lemma C7_class_is_returned_uncalled :
  ~ (forall val d,
       (exists_ val = true -> default val d = Ok val) /\
       (exists_ val = false -> zero_arg_callable d = true ->
        default val d = call0 d) /\
       (exists_ val = false -> callable d = false -> default val d = Ok d)).
Proof.
  intros H. destruct (H VNone int_class) as (_ & Hcall & _).
  specialize (Hcall eq_refl eq_refl). discriminate Hcall.
Qed.

(** C7, amended.  [default(val, d)] returns [val] when it is not [None];
    otherwise it returns [d()] when [d] is a plain function (what
    [inspect.isfunction] accepts), and [d] itself in every other case:
    when [d] is not callable, and also when [d] is a callable of another
    kind (class, builtin, bound method, partial, callable instance). *)
Theorem C7_default (val d : value) :
  (exists_ val = true -> default val d = Ok val) /\
  (exists_ val = false -> isfunction d = true -> default val d = call0 d) /\
  (exists_ val = false -> isfunction d = false -> default val d = Ok d) /\
  (exists_ val = false -> callable d = false -> default val d = Ok d).
Proof.
  unfold default. split; [| split; [| split]].
  - intros Hv. now rewrite Hv.
  - intros Hv Hd. now rewrite Hv, Hd.
  - intros Hv Hd. now rewrite Hv, Hd.
  - intros Hv Hd. rewrite Hv. destruct d; try reflexivity. discriminate Hd.
Qed.

Lemma C7_default_witness :
  default (VInt 3) (VInt 4) = Ok (VInt 3) /\
  default VNone (VCallable PyFunction 0 (VInt 7)) = Ok (VInt 7) /\
  default VNone int_class = Ok int_class /\
  default VNone (VStr "x") = Ok (VStr "x").
Proof.
  split; [| split; [| split]].
  - apply (proj1 (C7_default (VInt 3) (VInt 4))). reflexivity.
  - apply (proj1 (proj2 (C7_default VNone (VCallable PyFunction 0 (VInt 7)))));
      reflexivity.
  - apply (proj1 (proj2 (proj2 (C7_default VNone int_class)))); reflexivity.
  - apply (proj2 (proj2 (proj2 (C7_default VNone (VStr "x"))))); reflexivity.
Defined.

End DefaultProperties.

(** ** [instantiate_from_config] *)

Section ConfigProperties.
Import Config.
Context {V Obj : Type}.
Variable modules : gmap string (gmap string (@constructor V (option Obj))).
Variable reload_module : string -> result (gmap string (@constructor V (option Obj))).

Lemma config_eq_str_true (c : @config V) (marker : string) :
  config_eq_str c marker = true <-> c = ConfigStr marker.
Proof.
  destruct c as [s|d]; cbn; [| split; discriminate].
  rewrite String.eqb_eq. split; [now intros -> | now intros [= ->]].
Qed.

Lemma config_eq_str_false (c : @config V) (marker : string) :
  c <> ConfigStr marker -> config_eq_str c marker = false.
Proof.
  intros H. destruct (config_eq_str c marker) eqn:E; [| reflexivity].
  now apply config_eq_str_true in E.
Qed.

(** Neither marker string contains the text [target]. *)
Lemma markers_lack_target :
  has_target (V:=V) (ConfigStr first_stage_marker) = false /\
  has_target (V:=V) (ConfigStr unconditional_marker) = false.
Proof. split; reflexivity. Qed.

(** A record lacks the key exactly when [in] says so. *)
Lemma dict_lacks_target (d : gmap string (@cfg_value V)) :
  has_target (ConfigDict d) = false <-> d !! "target" = None.
Proof.
  cbn. rewrite bool_decide_eq_false, <- eq_None_not_Some. reflexivity.
Qed.

(** What happens when ["target" in config] is false. *)
Lemma instantiate_not_in (c : @config V) :
  has_target c = false ->
  c <> ConfigStr "__is_first_stage__" ->
  c <> ConfigStr "__is_unconditional__" ->
  instantiate_from_config modules reload_module c
  = Raise (Exn KeyError "Expected key `target` to instantiate.").
Proof.
  intros Hlacks H1 H2. unfold instantiate_from_config. rewrite Hlacks. cbn [negb].
  unfold first_stage_marker, unconditional_marker, missing_target.
  rewrite (config_eq_str_false _ _ H1), (config_eq_str_false _ _ H2).
  reflexivity.
Qed.

(** C5, amended.  The two marker strings give [None] and no exception.
    A record without a [target] key raises [KeyError], and so does a
    string that is neither marker and does not contain the text
    [target].  A string that does contain the text [target] passes the
    [in] test, which on a string is a substring test, and raises
    [TypeError] at [config["target"]] instead. *)
Theorem C5_instantiate_without_target :
  (forall c : @config V,
     c = ConfigStr "__is_first_stage__" \/ c = ConfigStr "__is_unconditional__" ->
     instantiate_from_config modules reload_module c = Ok None) /\
  (forall d : gmap string (@cfg_value V),
     d !! "target" = None ->
     instantiate_from_config modules reload_module (ConfigDict d)
     = Raise (Exn KeyError "Expected key `target` to instantiate.")) /\
  (forall s : string,
     PyStr.contains "target" s = false ->
     s <> "__is_first_stage__" -> s <> "__is_unconditional__" ->
     instantiate_from_config modules reload_module (ConfigStr s)
     = Raise (Exn KeyError "Expected key `target` to instantiate.")) /\
  (forall s : string,
     PyStr.contains "target" s = true ->
     instantiate_from_config modules reload_module (ConfigStr s)
     = Raise (Exn TypeError "string indices must be integers")).
Proof.
  split; [| split; [| split]].
  - intros c [-> | ->]; reflexivity.
  - intros d Hd. apply instantiate_not_in; [| discriminate | discriminate].
    now apply dict_lacks_target.
  - intros s Hs H1 H2. apply instantiate_not_in; [exact Hs | |]; congruence.
  - intros s Hs. unfold instantiate_from_config. cbn [has_target].
    now rewrite Hs.
Qed.

End ConfigProperties.

(** C5 as stated fails: the string ["my_target"] has no [target] key and is
    neither marker, yet the call raises [TypeError], not [KeyError]. *)
Lemma C5_string_containing_target :
  ~ (forall c : @Config.config Z,
       Config.lacks_target_key c ->
       c <> Config.ConfigStr "__is_first_stage__" ->
       c <> Config.ConfigStr "__is_unconditional__" ->
       Config.instantiate_from_config Examples.demo_modules Examples.demo_reload c
       = Raise (Exn KeyError "Expected key `target` to instantiate.")).
Proof.
  intros H.
  specialize (H (Config.ConfigStr "my_target") I ltac:(discriminate) ltac:(discriminate)).
  vm_compute in H. discriminate H.
Qed.

Lemma C5_instantiate_without_target_witness :
  Config.instantiate_from_config Examples.demo_modules Examples.demo_reload
    (Config.ConfigStr "__is_unconditional__") = Ok None /\
  Config.instantiate_from_config Examples.demo_modules Examples.demo_reload
    (Config.ConfigDict {[ "params" := Config.CMapping ∅ ]})
  = Raise (Exn KeyError "Expected key `target` to instantiate.") /\
  Config.instantiate_from_config Examples.demo_modules Examples.demo_reload
    (Config.ConfigStr "first_stage")
  = Raise (Exn KeyError "Expected key `target` to instantiate.") /\
  Config.instantiate_from_config Examples.demo_modules Examples.demo_reload
    (Config.ConfigStr "my_target")
  = Raise (Exn TypeError "string indices must be integers").
Proof.
  destruct (C5_instantiate_without_target Examples.demo_modules Examples.demo_reload)
    as (Hmarker & Hdict & Hstr & Htype).
  split; [| split; [| split]].
  - apply Hmarker. now right.
  - apply Hdict. vm_compute. reflexivity.
  - apply Hstr; [reflexivity | discriminate | discriminate].
  - apply Htype. reflexivity.
Defined.

(** ** [load] *)

Section LoaderProperties.
Import Loader.
Context {V P : Type}.
Variable checkpoint_files : gmap string string.
Variable config_files : gmap string (@yaml V).
Variable checkpoints : gmap string (option (gmap string P)).
Variable modules : gmap string (gmap string (gmap string V -> result (@model V P))).
Variable cuda_available : bool.

(** C6.  For a name that the checkpoint-file table does not have,
    [load] raises [Exception] with the message
    [no checkpoint file path specified for model "<name>"] (the name
    inside double quotes) and leaves the whole process state as it was:
    no configuration file, module or checkpoint has been accessed and
    the registry [models] is unchanged. *)
Theorem C6_load_unknown_name (name : string) (w : @world V P) :
  checkpoint_files !! name = None ->
  exists w',
    load checkpoint_files config_files checkpoints modules cuda_available name w
    = (Raise (Exn BaseException
                ("no checkpoint file path specified for model "
                 +:+ dquote +:+ name +:+ dquote)), w') /\
    w' = w /\ io_log w' = io_log w /\ models w' = models w.
Proof.
  intros Habsent. exists w. unfold load. rewrite Habsent.
  repeat split.
Qed.

End LoaderProperties.

(** A known name, by contrast, does read its configuration file first and
    ends up in the registry. *)
Lemma demo_load_known_name :
  exists m w',
    Loader.demo_load "sd-v1" Loader.demo_world = (Ok m, w') /\
    Loader.io_log w' = [Loader.ReadConfig "configs/sd-v1.yaml";
                        Loader.ImportModule "ldm";
                        Loader.ReadCheckpoint "weights/sd-v1.ckpt"] /\
    Loader.models w' !! "sd-v1" = Some m /\
    Loader.parameters m !! "w" = Some 42 /\
    Loader.parameters m !! "extra" = None /\
    Loader.half_precision m = true /\ Loader.on_cuda m = true /\
    Loader.training m = false.
Proof.
  eexists _, _. split; [vm_compute; reflexivity |].
  vm_compute. repeat split.
Qed.

Lemma C6_load_unknown_name_witness :
  Loader.demo_checkpoint_files !! "missing" = None /\
  Loader.demo_load "missing" Loader.demo_world
  = (Raise (Exn BaseException
              ("no checkpoint file path specified for model "
               +:+ dquote +:+ "missing" +:+ dquote)), Loader.demo_world).
Proof.
  split; [vm_compute; reflexivity |].
  destruct (C6_load_unknown_name Loader.demo_checkpoint_files
              Loader.demo_config_files Loader.demo_checkpoints
              Loader.demo_modules true "missing" Loader.demo_world)
    as (w' & Hload & -> & _); [vm_compute; reflexivity |].
  exact Hload.
Defined.

(** ** [create_random_tensors] *)

Section RandomTensorProperties.
Import Tensor.
Context {A G : Type}.
Variable manual_seed : Z -> G.
Variable normal : G -> A * G.

Lemma draws_length (n : nat) (g : G) : length (fst (draws normal n g)) = n.
Proof.
  revert g. induction n as [|n IH]; intros g; cbn; [reflexivity |].
  destruct (normal g) as [x g1]. specialize (IH g1).
  destruct (draws normal n g1) as [xs g2]. cbn in *. now rewrite IH.
Qed.

Lemma seed_in_range_spec (seed : Z) :
  seed_in_range seed = true <-> - 2 ^ 63 <= seed <= 2 ^ 64 - 1.
Proof.
  unfold seed_in_range. rewrite andb_true_iff, !Z.leb_le. reflexivity.
Qed.

Lemma seeds_in_range_forallb (seeds : list Z) :
  (forall s, In s seeds -> - 2 ^ 63 <= s <= 2 ^ 64 - 1) <->
  forallb seed_in_range seeds = true.
Proof.
  rewrite forallb_forall. split; intros H s Hs; apply seed_in_range_spec, H, Hs.
Qed.

(** Each pass of the loop reseeds, so each tensor depends on its seed
    alone, not on the generator state the loop started from; the first
    seed that torch refuses stops the loop. *)
Lemma seed_loop_result (sh : list nat) (seeds : list Z) (g : G) :
  exists g', seed_loop manual_seed normal sh seeds g
             = (if forallb seed_in_range seeds
                then Ok (map (draw_for manual_seed normal sh) seeds)
                else Raise (Exn RuntimeError "Overflow when unpacking long"), g').
Proof.
  revert g. induction seeds as [|seed rest IH]; intros g.
  - now exists g.
  - cbn [seed_loop map forallb]. unfold bind at 1, torch_manual_seed.
    destruct (seed_in_range seed); cbn [andb].
    2:{ now exists g. }
    unfold put_state. unfold bind at 1, torch_randn, draw_for.
    destruct (draws normal (numel sh) (manual_seed seed)) as [xs g1] eqn:E.
    destruct (IH g1) as [g2 Hrest]. exists g2.
    unfold bind at 1. rewrite Hrest.
    destruct (forallb seed_in_range rest); reflexivity.
Qed.

Lemma seed_loop_spec (sh : list nat) (seeds : list Z) (g : G) :
  forallb seed_in_range seeds = true ->
  exists g', seed_loop manual_seed normal sh seeds g
             = (Ok (map (draw_for manual_seed normal sh) seeds), g').
Proof.
  intros Hok. destruct (seed_loop_result sh seeds g) as [g' H].
  rewrite Hok in H. now exists g'.
Qed.

Lemma stack_draws (sh : list nat) (seeds : list Z) :
  seeds <> [] ->
  stack (map (draw_for manual_seed normal sh) seeds)
  = Ok (Tensor (length seeds :: sh)
               (concat (map data (map (draw_for manual_seed normal sh) seeds)))).
Proof.
  intros Hne. destruct seeds as [|s0 rest]; [congruence |].
  unfold stack. cbn [map].
  replace (forallb _ _) with true.
  - cbn [length shape draw_for]. now rewrite !length_map.
  - symmetry. apply forallb_forall. intros t Ht.
    apply bool_decide_eq_true. cbn [draw_for shape].
    destruct Ht as [<- | Ht]; [reflexivity |].
    apply in_map_iff in Ht as (s & <- & _). reflexivity.
Qed.

(** Equal-sized pieces can be read back out of their concatenation. *)
Lemma take_drop_concat {X} (n : nat) (ls : list (list X)) (i : nat) (l : list X) :
  Forall (fun l => length l = n) ls ->
  ls !! i = Some l ->
  take n (drop (i * n) (concat ls)) = l.
Proof.
  intros Hall. revert i. induction Hall as [|l0 ls Hl0 _ IH]; intros i Hi.
  - discriminate.
  - destruct i as [|i]; cbn in Hi |- *.
    + injection Hi as ->. rewrite drop_0.
      rewrite take_app_length'; [reflexivity | now symmetry].
    + rewrite drop_app_ge by lia. rewrite Hl0.
      replace (n + i * n - n)%nat with (i * n)%nat by lia.
      now apply IH.
Qed.

Lemma select_stacked (sh : list nat) (seeds : list Z) (i : nat) (seed : Z) :
  seeds !! i = Some seed ->
  select (Tensor (length seeds :: sh)
            (concat (map data (map (draw_for manual_seed normal sh) seeds)))) i
  = Some (draw_for manual_seed normal sh seed).
Proof.
  intros Hi. unfold select. cbn [shape data].
  pose proof (lookup_lt_Some _ _ _ Hi) as Hlt.
  destruct (Nat.ltb_spec i (length seeds)) as [_|]; [| lia].
  change (draw_for manual_seed normal sh seed)
    with (Tensor sh (fst (draws normal (numel sh) (manual_seed seed)))).
  do 2 f_equal.
  apply take_drop_concat.
  - rewrite Forall_map, Forall_map. apply Forall_forall. intros s _.
    cbn. apply draws_length.
  - rewrite !list_lookup_fmap, Hi. reflexivity.
Qed.

Lemma create_random_tensors_result (sh : list nat) (seeds : list Z) (g : G) :
  fst (create_random_tensors manual_seed normal sh seeds g)
  = if forallb seed_in_range seeds
    then stack (map (draw_for manual_seed normal sh) seeds)
    else Raise (Exn RuntimeError "Overflow when unpacking long").
Proof.
  unfold create_random_tensors.
  destruct (seed_loop_result sh seeds g) as [g' Hloop].
  unfold bind. rewrite Hloop.
  destruct (forallb seed_in_range seeds); reflexivity.
Qed.

(** C8, amended.  For every shape and seed list: (1) the outcome does not
    depend on the generator state at the time of the call, so two calls
    with the same seed list give equal results (the same tensor, or the
    same exception); (2) when every seed lies in the range torch accepts,
    [-2^63, 2^64 - 1], then at every position [i] of the seed list the call
    returns a tensor whose leading dimension is [len(seeds)], followed by
    [shape], and whose [i]-th slice is the draw determined by [seeds[i]]
    alone, so that two positions holding equal seeds hold equal tensors;
    (3) a seed outside that range makes the call raise; (4) so does an
    empty seed list, in [torch.stack], with the generator untouched. *)
Theorem C8_create_random_tensors_deterministic (sh : list nat) (seeds : list Z) :
  (forall g1 g2,
     fst (create_random_tensors manual_seed normal sh seeds g1)
     = fst (create_random_tensors manual_seed normal sh seeds g2)) /\
  ((forall s, In s seeds -> - 2 ^ 63 <= s <= 2 ^ 64 - 1) ->
   (forall g i seed,
      seeds !! i = Some seed ->
      exists out,
        fst (create_random_tensors manual_seed normal sh seeds g) = Ok out /\
        shape out = length seeds :: sh /\
        select out i = Some (draw_for manual_seed normal sh seed)) /\
   (forall g i j seed,
      seeds !! i = Some seed -> seeds !! j = Some seed ->
      exists out t,
        fst (create_random_tensors manual_seed normal sh seeds g) = Ok out /\
        select out i = Some t /\ select out j = Some t)) /\
  (forall g s,
     In s seeds -> ~ (- 2 ^ 63 <= s <= 2 ^ 64 - 1) ->
     exists e, fst (create_random_tensors manual_seed normal sh seeds g) = Raise e) /\
  (seeds = [] ->
   forall g, create_random_tensors manual_seed normal sh seeds g
             = (Raise (Exn RuntimeError "stack expects a non-empty TensorList"), g)).
Proof.
  split; [| split; [| split]].
  - intros g1 g2. now rewrite !create_random_tensors_result.
  - intros Hrange. apply seeds_in_range_forallb in Hrange.
    assert (Hpos : forall g i seed,
       seeds !! i = Some seed ->
       exists out,
         fst (create_random_tensors manual_seed normal sh seeds g) = Ok out /\
         shape out = length seeds :: sh /\
         select out i = Some (draw_for manual_seed normal sh seed)).
    { intros g i seed Hi. rewrite create_random_tensors_result, Hrange, stack_draws.
      - eexists. split; [reflexivity |]. split; [reflexivity |].
        now apply select_stacked.
      - intros ->. discriminate. }
    split; [exact Hpos |].
    intros g i j seed Hi Hj.
    destruct (Hpos g i seed Hi) as (out & Hout & _ & Hsi).
    destruct (Hpos g j seed Hj) as (out' & Hout' & _ & Hsj).
    rewrite Hout in Hout'. injection Hout' as <-.
    now exists out, (draw_for manual_seed normal sh seed).
  - intros g s Hin Hout. rewrite create_random_tensors_result.
    destruct (forallb seed_in_range seeds) eqn:Hall; [| eauto].
    exfalso. apply Hout. now apply (proj2 (seeds_in_range_forallb seeds)).
  - intros -> g. reflexivity.
Qed.

End RandomTensorProperties.

(** C8 as stated fails: the seed list [[2^64]] has a position, yet the
    call returns no tensor, because [torch.manual_seed] refuses the seed. *)
Lemma C8_seed_out_of_range_raises :
  ~ (forall (sh : list nat) (seeds : list Z) (g : Z) (i : nat) (seed : Z),
       seeds !! i = Some seed ->
       exists out,
         fst (Tensor.create_random_tensors Tensor.counter_seed Tensor.counter_normal
                sh seeds g) = Ok out /\
         Tensor.shape out = length seeds :: sh).
Proof.
  intros H.
  destruct (H [2%nat] [2 ^ 64] 0 0%nat (2 ^ 64) eq_refl) as (out & Hout & _).
  vm_compute in Hout. discriminate Hout.
Qed.

Lemma C8_create_random_tensors_witness :
  exists out t,
    fst (Tensor.create_random_tensors Tensor.counter_seed Tensor.counter_normal
           [2; 2]%nat [1; 1] 0) = Ok out /\
    Tensor.select out 0%nat = Some t /\ Tensor.select out 1%nat = Some t.
Proof.
  refine (proj2 (proj1 (proj2 (C8_create_random_tensors_deterministic
                                 Tensor.counter_seed Tensor.counter_normal
                                 [2; 2]%nat [1; 1])) _) 0 0%nat 1%nat 1 _ _).
  - intros s [<- | [<- | []]]; split; apply Z.leb_le; reflexivity.
  - reflexivity.
  - reflexivity.
Defined.

(** The call of the example, evaluated with the counter generator. *)
Lemma create_random_tensors_same_seed_example :
  fst (Tensor.create_random_tensors Tensor.counter_seed Tensor.counter_normal
         [2; 2]%nat [1; 1] 0)
  = Ok (Tensor.Tensor [2; 2; 2]%nat [1; 2; 3; 4; 1; 2; 3; 4]).
Proof. reflexivity. Qed.

(** ** [parallel_data_prefetch] *)

Section PrefetchProperties.
Import Prefetch.
Context {K A B : Type}.
Variable func : @batch A -> option nat -> list B.

(** C9.  The input is checked before anything else happens: an array
    with [target_data_type='list'] raises [ValueError]; an object that is
    neither an array nor iterable raises [TypeError]; in both cases
    nothing has been printed and no worker exists.  A dict is replaced by
    the list of its values after one warning line, and from there on the
    call proceeds exactly as the call on that list. *)
Theorem C9_prefetch_validates_first (n_proc : Z) (cpu use_id : bool) :
  (forall (xs : list A) (t0 : trace),
     parallel_data_prefetch (K:=K) func (NdArray xs) n_proc "list" cpu use_id t0
     = (Raise (Exn ValueError "list expected but function got ndarray."), t0)) /\
  (forall (items : list (K * A)) (target : string) (t0 : trace),
     validate (PyDict items) target t0
     = (Ok (convert (map snd items) target), t0 ++ [Print dict_warning]) /\
     parallel_data_prefetch func (PyDict items) n_proc target cpu use_id t0
     = parallel_data_prefetch (K:=K) func (PyList (map snd items)) n_proc target
         cpu use_id (t0 ++ [Print dict_warning])) /\
  (forall (ty target : string) (t0 : trace),
     parallel_data_prefetch (K:=K) func (PyObject ty) n_proc target cpu use_id t0
     = (Raise (Exn TypeError (not_iterable_msg ty)), t0)).
Proof.
  split; [| split].
  - reflexivity.
  - intros items target t0. split; reflexivity.
  - reflexivity.
Qed.

(** The construction loop either builds all [count] workers or stops
    with [IndexError] at the end of [arguments], having started none. *)
Lemma create_workers_spec (os : bool) (arguments : list (@task A))
    (count i : nat) (t : trace) :
  (i <= length arguments)%nat ->
  create_workers os arguments i count t =
    if decide (i + count <= length arguments)%nat then
      (Ok (take count (drop i arguments)),
       t ++ map (WorkerCreated os) (seq i count))
    else
      (Raise (Exn IndexError "list index out of range"),
       t ++ map (WorkerCreated os) (seq i (length arguments - i))).
Proof.
  revert i t. induction count as [|count IH]; intros i t Hi.
  - cbn. rewrite decide_True by lia. now rewrite app_nil_r.
  - cbn [create_workers].
    destruct (arguments !! i) as [a|] eqn:Ha.
    + pose proof (lookup_lt_Some _ _ _ Ha) as Hlt.
      unfold bind at 1, emit, modify. unfold bind at 1.
      rewrite IH by lia.
      destruct (decide (S i + count <= length arguments)%nat) as [Hle|Hgt].
      * rewrite decide_True by lia. unfold ret.
        rewrite (drop_S _ _ _ Ha). cbn [take seq map].
        now rewrite <- app_assoc.
      * rewrite decide_False by lia.
        replace (length arguments - i)%nat
          with (S (length arguments - S i)) by lia.
        cbn [seq map]. now rewrite <- app_assoc.
    + pose proof (lookup_ge_None_1 _ _ Ha) as Hge.
      rewrite decide_False by lia.
      replace (length arguments - i)%nat with 0%nat by lia.
      cbn. now rewrite app_nil_r.
Qed.

(** For at least one worker and a non-empty list, the chunk size the
    code computes is [ceil(len / n_proc)]. *)
Lemma step_of_is_ceil (len n_proc : Z) :
  1 <= n_proc -> 1 <= len ->
  step_of len n_proc = Ok (ceil_div len n_proc) /\ 1 <= ceil_div len n_proc.
Proof.
  intros Hn Hlen. unfold step_of, ceil_div.
  destruct (Z.eqb_spec n_proc 0) as [|_]; [lia |].
  pose proof (Z.div_mod len n_proc ltac:(lia)) as Hdm.
  pose proof (Z.mod_pos_bound len n_proc ltac:(lia)) as Hr.
  destruct (Z.eqb_spec (len mod n_proc) 0) as [Hz|Hnz]; cbn [negb].
  - rewrite Z.quot_div_nonneg by lia.
    assert (Heq : (len + n_proc - 1) / n_proc = len / n_proc).
    { symmetry. apply (Z.div_unique _ _ _ (n_proc - 1)); lia. }
    rewrite Heq. split; [reflexivity |]. nia.
  - rewrite Z.quot_div_nonneg by lia.
    assert (H1 : (len + n_proc) / n_proc = len / n_proc + 1).
    { symmetry. apply (Z.div_unique _ _ _ (len mod n_proc)); lia. }
    assert (H2 : (len + n_proc - 1) / n_proc = len / n_proc + 1).
    { symmetry. apply (Z.div_unique _ _ _ (len mod n_proc - 1)); lia. }
    rewrite H1, H2. split; [reflexivity |].
    pose proof (Z.div_pos len n_proc ltac:(lia) ltac:(lia)). lia.
Qed.


(** On the list path, [arguments] holds the chunks of size
    [ceil(len / n_proc)], numbered in order. *)
Lemma make_arguments_list (xs : list A) (n_proc : Z) (use_id : bool) :
  xs <> [] -> 1 <= n_proc ->
  make_arguments (Lst xs) n_proc "list" use_id
  = Ok (enumerate_tasks
          (map Lst (chunks xs (ceil_div (Z.of_nat (length xs)) n_proc)))
          use_id).
Proof.
  intros Hne Hn. unfold make_arguments. cbn [String.eqb Ascii.eqb Bool.eqb items_of].
  assert (Hlen : 1 <= Z.of_nat (length xs)) by (destruct xs; [congruence | cbn; lia]).
  destruct (step_of_is_ceil _ _ Hn Hlen) as [-> Hstep].
  cbn [rbind]. set (step := ceil_div (Z.of_nat (length xs)) n_proc) in *.
  unfold range0.
  destruct (Z.eqb_spec step 0) as [|_]; [lia |].
  destruct (Z.ltb_spec step 0) as [|_]; [lia |].
  cbn [rbind]. do 2 f_equal.
  unfold chunks, ceil_div. rewrite !map_map.
  apply map_ext. intros j. unfold slice. do 3 f_equal. lia.
Qed.

(** C10.  For a non-empty list with [target_data_type='list'] and
    [n_proc >= 1]: when cutting the list into chunks of
    [ceil(len / n_proc)] elements gives fewer than [n_proc] chunks,
    the call raises [IndexError] while it builds the workers; one worker
    per chunk has been created by then and none has been started. *)
Theorem C10_fewer_chunks_than_workers (xs : list A) (n_proc : Z)
    (cpu use_id : bool) (t0 : trace) :
  xs <> [] ->
  1 <= n_proc ->
  Z.of_nat (length (chunks xs (ceil_div (Z.of_nat (length xs)) n_proc))) < n_proc ->
  exists created,
    parallel_data_prefetch (K:=K) func (PyList xs) n_proc "list" cpu use_id t0
    = (Raise (Exn IndexError "list index out of range"), t0 ++ created) /\
    created = map (WorkerCreated cpu)
                  (seq 0 (length (chunks xs (ceil_div (Z.of_nat (length xs)) n_proc)))) /\
    Forall (fun e => is_start e = false) created.
Proof.
  intros Hne Hn Hfew. eexists. split; [| split; [reflexivity |]].
  - unfold parallel_data_prefetch.
    change (validate (K:=K) (PyList xs) "list") with (ret (S:=trace) (Lst xs)).
    rewrite bind_ret, (make_arguments_list _ _ use_id Hne Hn).
    unfold bind at 1, lift.
    apply bind_raise.
    rewrite create_workers_spec by lia.
    unfold enumerate_tasks. rewrite length_imap, length_map.
    rewrite decide_False by lia. now rewrite Nat.sub_0_r.
  - apply List.Forall_forall. intros e He.
    apply in_map_iff in He as (i & <- & _). reflexivity.
Qed.

End PrefetchProperties.

(** The example of C10: six elements for four workers give chunks of two,
    hence three chunks. *)
Lemma C10_fewer_chunks_witness :
  exists created,
    Prefetch.parallel_data_prefetch (K:=nat) Prefetch.identity_func
      (Prefetch.PyList [1; 2; 3; 4; 5; 6]) 4 "list" true false []
    = (Raise (Exn IndexError "list index out of range"), [] ++ created) /\
    created = [Prefetch.WorkerCreated true 0; Prefetch.WorkerCreated true 1;
               Prefetch.WorkerCreated true 2].
Proof.
  destruct (C10_fewer_chunks_than_workers (K:=nat) Prefetch.identity_func
              [1; 2; 3; 4; 5; 6] 4 true false [])
    as (created & Hrun & Hcreated & _).
  - discriminate.
  - lia.
  - vm_compute. reflexivity.
  - exists created. split; [exact Hrun |]. rewrite Hcreated. reflexivity.
Defined.

(** With three workers the same list is cut into three chunks and comes
    back whole and in order. *)
Lemma prefetch_six_for_three_example :
  fst (Prefetch.parallel_data_prefetch (K:=nat) Prefetch.identity_func
         (Prefetch.PyList [1; 2; 3; 4; 5; 6]) 3 "list" true false [])
  = Ok (Prefetch.OutList [1; 2; 3; 4; 5; 6]).
Proof. vm_compute. reflexivity. Qed.

(** * Further properties of the code *)

(** ** [resize_image]: what every call leaves behind *)

Section ResizeFrame.
Import PIL Resize ResizeSpec.

Lemma bind_lift {S A B} (r : result A) (k : A -> M S B) (s : S) :
  bind (lift r) k s = match r with Ok a => k a s | Raise e => (Raise e, s) end.
Proof. unfold bind, lift. now destruct r. Qed.

Lemma lookup_app_plus {X} (h l : list X) (i : nat) :
  (h ++ l) !! (length h + i)%nat = l !! i.
Proof. rewrite lookup_app_r by lia. f_equal. lia. Qed.

Lemma bind_deref_l {B} (h l : heap) (i : ref) (x : image) (k : image -> M heap B) :
  h !! i = Some x -> bind (deref i) k (h ++ l) = k x (h ++ l).
Proof.
  intros H. unfold bind, deref. rewrite lookup_app_l by (eapply lookup_lt_Some; eauto).
  now rewrite H.
Qed.

Lemma bind_deref_r {B} (h l : heap) (i : nat) (x : image) (k : image -> M heap B) :
  l !! i = Some x -> bind (deref (length h + i)%nat) k (h ++ l) = k x (h ++ l).
Proof. intros H. unfold bind, deref. now rewrite lookup_app_plus, H. Qed.

Lemma bind_alloc {B} (h l : heap) (x : image) (k : ref -> M heap B) :
  bind (alloc x) k (h ++ l) = k (length h + length l)%nat (h ++ (l ++ [x])).
Proof. unfold bind, alloc. now rewrite length_app, <- app_assoc. Qed.

Lemma bind_new {B} (h l : heap) (m : string) (size : Z * Z) (k : ref -> M heap B) :
  bind (Image_new m size) k (h ++ l)
  = k (length h + length l)%nat
      (h ++ (l ++ [Image (fst size) (snd size) m Transparent])).
Proof. apply bind_alloc. Qed.

Lemma bind_resize_l {B} (h l : heap) (im : ref) (src : image) (size : Z * Z)
    (f : filter) (box : option (Z * Z * Z * Z)) (k : ref -> M heap B) :
  h !! im = Some src ->
  bind (resize im size f box) k (h ++ l)
  = k (length h + length l)%nat
      (h ++ (l ++ [Image (fst size) (snd size) (mode src) (Resized f (px src) box)])).
Proof.
  intros H. unfold resize.
  change (bind (bind (deref im) ?g) k) with
    (fun s => bind (bind (deref im) g) k s).
  cbv beta. unfold bind at 1. rewrite (bind_deref_l _ _ _ _ _ H).
  apply bind_alloc.
Qed.

Lemma bind_resize_r {B} (h l : heap) (i : nat) (src : image) (size : Z * Z)
    (f : filter) (box : option (Z * Z * Z * Z)) (k : ref -> M heap B) :
  l !! i = Some src ->
  bind (resize (length h + i)%nat size f box) k (h ++ l)
  = k (length h + length l)%nat
      (h ++ (l ++ [Image (fst size) (snd size) (mode src) (Resized f (px src) box)])).
Proof.
  intros H. unfold resize. unfold bind at 1. rewrite (bind_deref_r _ _ _ _ _ H).
  apply bind_alloc.
Qed.

Lemma bind_paste {B} (h l : heap) (d s : nat) (dimg simg : image) (at_ : Z * Z)
    (k : unit -> M heap B) :
  l !! d = Some dimg -> l !! s = Some simg ->
  bind (paste (length h + d)%nat (length h + s)%nat at_) k (h ++ l)
  = k tt (h ++ <[d := Image (width dimg) (height dimg) (mode dimg)
                         (Pasted (px dimg) (px simg) (width simg, height simg) at_)]> l).
Proof.
  intros Hd Hs. unfold paste. unfold bind at 1.
  rewrite (bind_deref_r _ _ _ _ _ Hd), (bind_deref_r _ _ _ _ _ Hs).
  unfold modify. now rewrite insert_app_r.
Qed.

Lemma outcome_raise (h : heap) (im : ref) (w ht : Z) (e : exn) (l : heap) :
  outcome_ok h im w ht (Raise e) (h ++ l).
Proof. exists l. split; [reflexivity |]. intros res [=]. Qed.

Lemma outcome_new (h l : heap) (im : ref) (w ht : Z) (i : nat) (img : image) :
  l !! i = Some img -> width img = w -> height img = ht ->
  outcome_ok h im w ht (Ok (length h + i)%nat) (h ++ l).
Proof.
  intros Hi Hw Hh. exists l. split; [reflexivity |]. intros res [= <-].
  exists img. rewrite lookup_app_plus. repeat split; try assumption.
  right. lia.
Qed.

End ResizeFrame.

Section ResizeOutcome.
Import PIL Resize ResizeSpec.

Lemma bind_assoc {S A B C} (m : M S A) (f : A -> M S B) (g : B -> M S C) (s : S) :
  bind (bind m f) g s = bind m (fun x => bind (f x) g) s.
Proof. unfold bind. destruct (m s) as [[a|e] s']; reflexivity. Qed.

Ltac heap_step :=
  first
    [ rewrite bind_lift
    | rewrite bind_assoc
    | rewrite bind_ret
    | erewrite bind_resize_l by eassumption
    | erewrite bind_resize_r by reflexivity
    | rewrite bind_new
    | erewrite bind_paste by reflexivity
    | erewrite bind_deref_r by reflexivity ];
  cbn [length app fst snd insert list_insert width height mode px].

Lemma resize_run_l (h l : heap) (im : ref) (src : image) (size : Z * Z)
    (f : filter) (box : option (Z * Z * Z * Z)) :
  h !! im = Some src ->
  resize im size f box (h ++ l)
  = (Ok (length h + length l)%nat,
     h ++ (l ++ [Image (fst size) (snd size) (mode src) (Resized f (px src) box)])).
Proof.
  intros H. unfold resize, bind, deref, alloc.
  rewrite lookup_app_l by (eapply lookup_lt_Some; eauto).
  now rewrite H, length_app, <- app_assoc.
Qed.

Lemma outcome_raise_here (h : heap) (im : ref) (w ht : Z) (e : exn) :
  outcome_ok h im w ht (Raise e) h.
Proof. rewrite <- (app_nil_r h) at 2. apply outcome_raise. Qed.

(** Every run of [resize_image], in continuation form. *)
Lemma resize_image_cases (h : heap) (im : ref) (w ht : Z) (mode : string)
    (P : result ref * heap -> Prop) :
  (forall r h', outcome_ok h im w ht r h' -> P (r, h')) ->
  P (resize_image im w ht mode h).
Proof.
  intros HP. unfold resize_image. unfold bind at 1, deref at 1.
  destruct (h !! im) as [src|] eqn:Hsrc.
  2:{ apply HP, outcome_raise_here. }
  destruct ((width src =? w) && (height src =? ht)) eqn:Hsame.
  { apply andb_true_iff in Hsame as [Hw Hh].
    apply Z.eqb_eq in Hw, Hh. apply HP.
    exists []. split; [now rewrite app_nil_r |].
    intros res [= <-]. exists src. repeat split; try assumption. now left. }
  rewrite <- (app_nil_r h).
  destruct (String.eqb mode "stretch").
  { rewrite (resize_run_l _ _ _ _ _ _ _ Hsrc). cbn [length app fst snd].
    apply HP. eapply (outcome_new _ _ _ _ _ 0%nat); reflexivity. }
  destruct (String.eqb mode "pad").
  { heap_step.
    destruct (PyFloat.int_truediv w ht) as [ratio|e];
      [| apply HP, outcome_raise].
    heap_step.
    destruct (PyFloat.int_truediv (width src) (height src)) as [src_ratio|e];
      [| apply HP, outcome_raise].
    heap_step.
    destruct (if PyFloat.ltb src_ratio ratio then _ else _) as [src_w|e];
      [| apply HP, outcome_raise].
    heap_step.
    destruct (if PyFloat.leb ratio src_ratio then _ else _) as [src_h|e];
      [| apply HP, outcome_raise].
    repeat heap_step. unfold ret. apply HP.
    eapply (outcome_new _ _ _ _ _ 1%nat); reflexivity. }
  destruct (String.eqb mode "repeat").
  { heap_step.
    destruct (PyFloat.int_truediv w ht) as [ratio|e];
      [| apply HP, outcome_raise].
    heap_step.
    destruct (PyFloat.int_truediv (width src) (height src)) as [src_ratio|e];
      [| apply HP, outcome_raise].
    heap_step.
    destruct (if PyFloat.ltb ratio src_ratio then _ else _) as [src_w|e];
      [| apply HP, outcome_raise].
    heap_step.
    destruct (if PyFloat.leb src_ratio ratio then _ else _) as [src_h|e];
      [| apply HP, outcome_raise].
    repeat heap_step.
    destruct (PyFloat.ltb ratio src_ratio);
      [| destruct (PyFloat.ltb src_ratio ratio)];
      repeat heap_step; unfold ret; apply HP;
      eapply (outcome_new _ _ _ _ _ 1%nat); reflexivity. }
  apply HP, outcome_raise.
Qed.

End ResizeOutcome.

Section ResizeGuarantees.
Import PIL Resize ResizeSpec.

Lemma resize_image_outcome (h h' : heap) (im : ref) (w ht : Z) (mode : string)
    (r : result ref) :
  resize_image im w ht mode h = (r, h') -> outcome_ok h im w ht r h'.
Proof.
  intros H.
  apply (resize_image_cases h im w ht mode
           (fun p => p = (r, h') -> outcome_ok h im w ht r h')); [| exact H].
  intros r0 h0 Hok [= <- <-]. exact Hok.
Qed.

(** X1.  Whatever the mode and whether the call returns or raises, every
    image object that existed before the call is still there afterwards,
    unchanged: [resize_image] only creates objects and pastes onto the
    canvas it created itself. *)
Theorem resize_image_leaves_existing_images_alone
    (h h' : heap) (im : ref) (w ht : Z) (mode : string) (r : result ref) :
  resize_image im w ht mode h = (r, h') ->
  forall i img, h !! i = Some img -> h' !! i = Some img.
Proof.
  intros H i img Hi. destruct (resize_image_outcome _ _ _ _ _ _ _ H) as (l & -> & _).
  rewrite lookup_app_l by (eapply lookup_lt_Some; eauto). exact Hi.
Qed.

Lemma resize_image_leaves_existing_images_alone_witness :
  snd (resize_image 0%nat 200 100 "repeat" square_source) !! 0%nat
  = Some (Image 100 100 "RGB" (Source 0)).
Proof.
  apply (resize_image_leaves_existing_images_alone square_source _ 0%nat 200 100
           "repeat" (fst (resize_image 0%nat 200 100 "repeat" square_source))).
  - vm_compute. reflexivity.
  - reflexivity.
Defined.

(** X2.  In every mode, whenever [resize_image] returns, the image it
    returns has exactly the requested width and height. *)
Theorem resize_image_result_has_requested_size
    (h h' : heap) (im res : ref) (w ht : Z) (mode : string) :
  resize_image im w ht mode h = (Ok res, h') ->
  exists img, h' !! res = Some img /\ width img = w /\ height img = ht.
Proof.
  intros H. destruct (resize_image_outcome _ _ _ _ _ _ _ H) as (l & _ & Hres).
  destruct (Hres res eq_refl) as (img & Himg & Hw & Hh & _).
  now exists img.
Qed.

Lemma resize_image_result_has_requested_size_witness :
  exists img,
    snd (resize_image 0%nat 64 48 "stretch" square_source) !! 1%nat = Some img /\
    width img = 64 /\ height img = 48.
Proof.
  apply (resize_image_result_has_requested_size square_source _ 0%nat 1%nat
           64 48 "stretch").
  vm_compute. reflexivity.
Defined.

(** X3.  When the requested size differs from the source's, the returned
    image is a new object, never the input itself. *)
Theorem resize_image_result_is_new_when_size_differs
    (h h' : heap) (im res : ref) (src : image) (w ht : Z) (mode : string) :
  h !! im = Some src ->
  width src <> w \/ height src <> ht ->
  resize_image im w ht mode h = (Ok res, h') ->
  (length h <= res)%nat /\ res <> im.
Proof.
  intros Hsrc Hdiff H.
  destruct (resize_image_outcome _ _ _ _ _ _ _ H) as (l & -> & Hres).
  destruct (Hres res eq_refl) as (img & Himg & Hw & Hh & [[-> ->] | Hnew]).
  - rewrite app_nil_r, Hsrc in Himg. injection Himg as <-. lia.
  - split; [exact Hnew |]. apply lookup_lt_Some in Hsrc. lia.
Qed.

Lemma resize_image_result_is_new_witness :
  (length square_source <= 2)%nat /\ 2%nat <> 0%nat.
Proof.
  apply (resize_image_result_is_new_when_size_differs square_source
           (snd (resize_image 0%nat 200 100 "pad" square_source))
           0%nat 2%nat (Image 100 100 "RGB" (Source 0)) 200 100 "pad").
  - reflexivity.
  - left. cbn. lia.
  - vm_compute. reflexivity.
Defined.

(** X4.  A mode other than ['stretch'], ['pad'] and ['repeat'] is only
    noticed when the size differs: the call then raises
    [UnboundLocalError] at [return res], having created nothing. *)
Theorem resize_image_unknown_mode
    (h : heap) (im : ref) (src : image) (w ht : Z) (mode : string) :
  h !! im = Some src ->
  width src <> w \/ height src <> ht ->
  mode <> "stretch" -> mode <> "pad" -> mode <> "repeat" ->
  resize_image im w ht mode h
  = (Raise (Exn UnboundLocalError
              "local variable 'res' referenced before assignment"), h).
Proof.
  intros Hsrc Hdiff H1 H2 H3. unfold resize_image.
  rewrite (bind_ok _ _ _ _ _ (deref_lookup _ _ _ Hsrc)).
  replace ((width src =? w) && (height src =? ht)) with false.
  - apply String.eqb_neq in H1, H2, H3. now rewrite H1, H2, H3.
  - symmetry. apply andb_false_iff.
    destruct Hdiff as [Hd|Hd]; [left | right]; now apply Z.eqb_neq.
Qed.

Lemma resize_image_unknown_mode_witness :
  resize_image 0%nat 50 50 "fit" square_source
  = (Raise (Exn UnboundLocalError
              "local variable 'res' referenced before assignment"),
     square_source).
Proof.
  apply (resize_image_unknown_mode square_source 0%nat
           (Image 100 100 "RGB" (Source 0)) 50 50 "fit").
  - reflexivity.
  - left. cbn. lia.
  - discriminate.
  - discriminate.
  - discriminate.
Defined.

(** X5.  In the modes ['pad'] and ['repeat'] a target height of zero, or
    a source of height zero, makes the ratio computation raise
    [ZeroDivisionError] before any image is created. *)
Theorem resize_image_zero_height
    (h : heap) (im : ref) (src : image) (w ht : Z) (mode : string) :
  h !! im = Some src ->
  width src <> w \/ height src <> ht ->
  mode = "pad" \/ mode = "repeat" ->
  ht = 0 \/ height src = 0 ->
  resize_image im w ht mode h
  = (Raise (Exn ZeroDivisionError "division by zero"), h).
Proof.
  intros Hsrc Hdiff Hmode Hzero. unfold resize_image.
  rewrite (bind_ok _ _ _ _ _ (deref_lookup _ _ _ Hsrc)).
  replace ((width src =? w) && (height src =? ht)) with false.
  2:{ symmetry. apply andb_false_iff.
      destruct Hdiff as [Hd|Hd]; [left | right]; now apply Z.eqb_neq. }
  assert (Hdiv : forall (A : Type) (k1 : PyFloat.float -> PyFloat.float -> M heap A),
    bind (lift (PyFloat.int_truediv w ht))
      (fun ratio => bind (lift (PyFloat.int_truediv (width src) (height src)))
                      (fun src_ratio => k1 ratio src_ratio)) h
    = (Raise (Exn ZeroDivisionError "division by zero"), h)).
  { intros A k1. rewrite bind_lift. unfold PyFloat.int_truediv.
    destruct (Z.eqb_spec ht 0) as [|Hht]; [reflexivity |].
    rewrite bind_lift.
    destruct (Z.eqb_spec (height src) 0) as [|Hhs]; [reflexivity |].
    destruct Hzero; contradiction. }
  destruct Hmode as [-> | ->]; cbn [String.eqb Ascii.eqb Bool.eqb]; apply Hdiv.
Qed.

Lemma resize_image_zero_height_witness :
  resize_image 0%nat 50 0 "pad" square_source
  = (Raise (Exn ZeroDivisionError "division by zero"), square_source).
Proof.
  apply (resize_image_zero_height square_source 0%nat
           (Image 100 100 "RGB" (Source 0)) 50 0 "pad").
  - reflexivity.
  - left. cbn. lia.
  - now left.
  - now left.
Defined.

End ResizeGuarantees.

(** ** [parallel_data_prefetch]: complete runs and edge cases *)

Section PrefetchRuns.
Import Prefetch PrefetchSpec.
Context {K A B : Type}.
Variable func : @batch A -> option nat -> list B.

Lemma concat_take_pieces (xs : list A) (s c : nat) :
  concat (map (fun j => take s (drop (j * s) xs)) (seq 0 c)) = take (c * s) xs.
Proof.
  induction c as [|c IH]; [reflexivity |].
  rewrite seq_S, map_app, concat_app, IH. cbn [map concat Nat.add].
  rewrite app_nil_r, take_take_drop. f_equal. lia.
Qed.

Lemma ceil_div_covers (len size : Z) :
  0 <= len -> 1 <= size -> len <= ceil_div len size * size /\ 0 <= ceil_div len size.
Proof.
  intros Hlen Hsize. unfold ceil_div.
  pose proof (Z.div_mod (len + size - 1) size ltac:(lia)) as Hdm.
  pose proof (Z.mod_pos_bound (len + size - 1) size ltac:(lia)) as Hr.
  split; [nia |]. apply Z.div_pos; lia.
Qed.

(** The chunks, laid end to end, are the list. *)
Lemma concat_chunks (xs : list A) (size : Z) :
  1 <= size -> concat (chunks xs size) = xs.
Proof.
  intros Hsize. unfold chunks. rewrite concat_take_pieces.
  apply take_ge.
  destruct (ceil_div_covers (Z.of_nat (length xs)) size ltac:(lia) Hsize) as [Hc Hc0].
  nia.
Qed.

Lemma gather_spec (wrap : list A -> @batch A) (u : bool) (parts : list (list A))
    (k : nat) (g : list (list B)) :
  length g = (k + length parts)%nat ->
  foldl (fun g w => let '(i, r) := _do_parallel_data_prefetch func w in <[i := r]> g)
        g (imap (fun i p => Task (wrap p) (k + i) u) parts)
  = take k g ++ imap (fun i p => worker_result func u wrap (k + i) p) parts.
Proof.
  revert k g. induction parts as [|p parts IH]; intros k g Hlen.
  - cbn. rewrite app_nil_r. symmetry. apply take_ge. cbn in Hlen. lia.
  - rewrite !imap_cons. cbn [foldl length] in *.
    unfold _do_parallel_data_prefetch at 2. cbn [idx part idx_to_fn].
    rewrite !Nat.add_0_r.
    rewrite (imap_ext _ (fun i p => Task (wrap p) (S k + i) u)) by
      (intros i x _; unfold compose; f_equal; lia).
    rewrite IH by (rewrite length_insert; lia).
    rewrite (take_S_r _ _ (func (wrap p) (if u then Some k else None))).
    2:{ apply list_lookup_insert_eq. lia. }
    rewrite take_insert_ge by lia. rewrite <- app_assoc. cbn [app].
    f_equal. unfold worker_result at 2. f_equal.
    apply imap_ext. intros i x _. unfold compose, worker_result.
    do 2 f_equal. destruct u; [f_equal; lia | reflexivity].
Qed.

Lemma run_workers_all (wrap : list A -> @batch A) (u : bool)
    (parts : list (list A)) (t : trace) :
  run_workers func (enumerate_tasks (map wrap parts) u) (length parts) t
  = (Ok (imap (worker_result func u wrap) parts),
     t ++ map WorkerStarted (seq 0 (length parts))
       ++ map WorkerJoined (seq 0 (length parts)) ++ [PrintElapsed]).
Proof.
  unfold run_workers, enumerate_tasks, bind, modify, emit, ret.
  rewrite imap_fmap. unfold compose.
  pose proof (gather_spec wrap u parts 0 (replicate (length parts) [])
                ltac:(rewrite length_replicate; lia)) as Hg.
  cbn [take app Nat.add] in Hg. rewrite Hg. f_equal.
  rewrite !imap_seq_0, !length_imap, <- !app_assoc. reflexivity.
Qed.

Lemma create_workers_all (cpu : bool) (arguments : list (@task A)) (t : trace) :
  create_workers cpu arguments 0 (length arguments) t
  = (Ok arguments, t ++ map (WorkerCreated cpu) (seq 0 (length arguments))).
Proof.
  rewrite create_workers_spec by lia. rewrite decide_True by lia.
  now rewrite drop_0, firstn_all.
Qed.

Lemma list_path_run (xs : list A) (n_proc : Z)
    (cpu use_id : bool) (t0 : trace) :
  xs <> [] ->
  1 <= n_proc ->
  length (chunks xs (ceil_div (Z.of_nat (length xs)) n_proc)) = Z.to_nat n_proc ->
  parallel_data_prefetch (K:=K) func (PyList xs) n_proc "list" cpu use_id t0
  = (Ok (OutList (concat (imap (worker_result func use_id Lst)
                               (chunks xs (ceil_div (Z.of_nat (length xs)) n_proc))))),
     t0 ++ complete_run cpu (Z.to_nat n_proc)).
Proof.
  intros Hne Hn Hcount. unfold parallel_data_prefetch.
  change (validate (K:=K) (PyList xs) "list") with (ret (S:=trace) (Lst xs)).
  rewrite bind_ret, bind_lift, (make_arguments_list _ _ use_id Hne Hn).
  set (cs := chunks xs (ceil_div (Z.of_nat (length xs)) n_proc)) in *.
  assert (Hargs : length (enumerate_tasks (map Lst cs) use_id) = Z.to_nat n_proc).
  { unfold enumerate_tasks. now rewrite length_imap, length_map. }
  rewrite <- Hargs at 1.
  rewrite (bind_ok _ _ _ _ _ (create_workers_all _ _ _)).
  unfold bind at 1, emit, modify.
  rewrite <- Hcount.
  rewrite (bind_ok _ _ _ _ _ (run_workers_all Lst use_id cs _)).
  cbn [String.eqb Ascii.eqb Bool.eqb]. unfold ret, complete_run.
  rewrite Hargs, <- Hcount, <- !app_assoc. reflexivity.
Qed.

(** X6.  On the list path, when cutting a non-empty list into chunks of
    [ceil(len / n_proc)] elements gives exactly [n_proc] chunks, the call
    succeeds: chunk [i] goes to worker [i] (which gets [worker_id=i] when
    asked for), the result is the workers' results concatenated in chunk
    order, and every worker is created, started and joined once. *)
Theorem prefetch_list_path_complete (xs : list A) (n_proc : Z)
    (cpu use_id : bool) (t0 : trace) :
  xs <> [] ->
  1 <= n_proc ->
  length (chunks xs (ceil_div (Z.of_nat (length xs)) n_proc)) = Z.to_nat n_proc ->
  parallel_data_prefetch (K:=K) func (PyList xs) n_proc "list" cpu use_id t0
  = (Ok (OutList (concat (imap (worker_result func use_id Lst)
                               (chunks xs (ceil_div (Z.of_nat (length xs)) n_proc))))),
     t0 ++ complete_run cpu (Z.to_nat n_proc)).
Proof. apply list_path_run. Qed.

End PrefetchRuns.

Section PrefetchArrayPath.
Import Prefetch PrefetchSpec.
Context {K A B : Type}.
Variable func : @batch A -> option nat -> list B.






End PrefetchArrayPath.

Section PrefetchOrder.
Import Prefetch PrefetchSpec.
Context {K A B : Type}.




Variable func : @batch A -> option nat -> list B.

(** X9.  An empty list (or empty iterable, or dict without entries) on
    the list path makes the chunk size zero, and the call stops with
    [ValueError] from [range], whatever the non-zero worker count; no
    worker has been created. *)
Theorem prefetch_empty_list (n_proc : Z) (target : string) (cpu use_id : bool)
    (t0 : trace) :
  n_proc <> 0 ->
  target <> "ndarray" ->
  parallel_data_prefetch (K:=K) func (PyList []) n_proc target cpu use_id t0
  = (Raise (Exn ValueError "range() arg 3 must not be zero"), t0).
Proof.
  intros Hn Ht. unfold parallel_data_prefetch.
  apply String.eqb_neq in Ht.
  assert (Hval : validate (K:=K) (A:=A) (PyList []) target = ret (S:=trace) (Lst [])).
  { unfold validate, convert. now rewrite Ht. }
  rewrite Hval, bind_ret, bind_lift.
  unfold make_arguments. rewrite Ht. cbn [items_of length Z.of_nat].
  unfold step_of. destruct (Z.eqb_spec n_proc 0) as [|_]; [contradiction |].
  rewrite Zmod_0_l. cbn [Z.eqb negb rbind].
  rewrite Z.quot_0_l by assumption. reflexivity.
Qed.

End PrefetchOrder.


Lemma prefetch_empty_list_witness :
  Prefetch.parallel_data_prefetch (K:=nat) Prefetch.identity_func
    (Prefetch.PyList []) 4 "list" true false []
  = (Raise (Exn ValueError "range() arg 3 must not be zero"), []).
Proof.
  apply (prefetch_empty_list (K:=nat) Prefetch.identity_func 4 "list" true false []).
  - discriminate.
  - discriminate.
Defined.

Lemma prefetch_list_path_complete_witness :
  Prefetch.parallel_data_prefetch (K:=nat) Prefetch.identity_func
    (Prefetch.PyList [1; 2; 3; 4; 5]) 3 "list" true true []
  = (Ok (Prefetch.OutList [1; 2; 3; 4; 5]), PrefetchSpec.complete_run true 3).
Proof.
  apply (prefetch_list_path_complete (K:=nat) Prefetch.identity_func
           [1; 2; 3; 4; 5] 3 true true []).
  - discriminate.
  - lia.
  - reflexivity.
Defined.


Section PrefetchNoWorkers.
Import Prefetch.
Context {K A B : Type}.
Variable func : @batch A -> option nat -> list B.

(** X10.  With [n_proc = 0] the call fails before it creates or prints
    anything: on the array path [np.array_split] refuses zero sections
    ([ValueError]); on the list path the modulo by zero raises
    [ZeroDivisionError]. *)
Theorem prefetch_zero_workers (xs : list A) (target : string)
    (cpu use_id : bool) (t0 : trace) :
  parallel_data_prefetch (K:=K) func (PyList xs) 0 "ndarray" cpu use_id t0
  = (Raise (Exn ValueError "number sections must be larger than 0."), t0) /\
  (target <> "ndarray" ->
   parallel_data_prefetch (K:=K) func (PyList xs) 0 target cpu use_id t0
   = (Raise (Exn ZeroDivisionError "integer division or modulo by zero"), t0)).
Proof.
  split; [reflexivity |].
  intros Ht. apply String.eqb_neq in Ht. unfold parallel_data_prefetch.
  assert (Hval : validate (K:=K) (PyList xs) target = ret (S:=trace) (Lst xs)).
  { unfold validate, convert. now rewrite Ht. }
  rewrite Hval, bind_ret, bind_lift.
  unfold make_arguments. now rewrite Ht.
Qed.

End PrefetchNoWorkers.

Lemma prefetch_zero_workers_witness :
  Prefetch.parallel_data_prefetch (K:=nat) Prefetch.identity_func
    (Prefetch.PyList [1; 2]) 0 "list" true false []
  = (Raise (Exn ZeroDivisionError "integer division or modulo by zero"), []).
Proof.
  apply (proj2 (prefetch_zero_workers (K:=nat) Prefetch.identity_func [1; 2]
                  "list" true false [])).
  discriminate.
Defined.

(** ** [load]: the registry and the order of accesses *)

Section LoaderOutcomes.
Import Loader LoaderSpec.
Context {V P : Type}.
Variable checkpoint_files : gmap string string.
Variable config_files : gmap string (@yaml V).
Variable checkpoints : gmap string (option (gmap string P)).
Variable modules : gmap string (gmap string (gmap string V -> result (@model V P))).
Variable cuda_available : bool.

Local Abbreviation run :=
  (load checkpoint_files config_files checkpoints modules cuda_available).

Lemma raise_outcome (name : string) (ms : gmap string (@model V P))
    (lg evs rest : list io_event) (e : exn) :
  expected_log checkpoint_files config_files name = evs ++ rest ->
  (checkpoint_files !! name <> None -> evs <> []) ->
  load_outcome checkpoint_files config_files name (World ms lg) (Raise e)
    (World ms (lg ++ evs)).
Proof.
  intros Hpre Hne. left. exists e, evs, rest. repeat split; assumption.
Qed.

Lemma load_cases (name : string) (w : @world V P)
    (Q : result (@model V P) * @world V P -> Prop) :
  (forall r w', load_outcome checkpoint_files config_files name w r w' -> Q (r, w')) ->
  Q (run name w).
Proof.
  intros HQ. destruct w as [ms lg]. unfold run, load.
  destruct (checkpoint_files !! name) as [path|] eqn:Hpath.
  2:{ apply HQ. rewrite <- (app_nil_r lg) at 2.
      apply (raise_outcome name ms lg [] []).
      - unfold expected_log. now rewrite Hpath.
      - intros Hne. now contradiction Hne. }
  unfold OmegaConf_load, torch_load, log, modify, throw, ret, lift, bind.
  cbn [models io_log].
  destruct (config_files !! config_path name) as [config|] eqn:Hcfg.
  2:{ apply HQ; eapply (raise_outcome name ms lg [_] []); [| discriminate].
      unfold expected_log. now rewrite Hpath, Hcfg. }
  assert (Hexp : expected_log checkpoint_files config_files name
                 = ReadConfig (config_path name) ::
                   match imported_module config with
                   | Some modulename => [ImportModule modulename; ReadCheckpoint path]
                   | None => []
                   end).
  { unfold expected_log. now rewrite Hpath, Hcfg. }
  unfold imported_module in Hexp.
  assert (Himp : forall mn, match model_entry config with
                            | Some mcfg =>
                                match target mcfg with
                                | Some tgt =>
                                    match PyStr.rsplit_dot tgt with
                                    | Some (modulename, _) => Some modulename
                                    | None => None
                                    end
                                | None => None
                                end
                            | None => None
                            end = Some mn -> imported_module config = Some mn)
    by (intros mn Hmn; exact Hmn).
  destruct (model_entry config) as [mcfg|].
  2:{ apply HQ; eapply (raise_outcome name ms lg [_] []); [exact Hexp | discriminate]. }
  destruct (target mcfg) as [tgt|].
  2:{ apply HQ; eapply (raise_outcome name ms lg [_] []); [exact Hexp | discriminate]. }
  destruct (PyStr.rsplit_dot tgt) as [[modulename classname]|].
  2:{ apply HQ; eapply (raise_outcome name ms lg [_] []); [exact Hexp | discriminate]. }
  cbn [models io_log]. rewrite <- ?app_assoc. cbn [app].
  destruct (Config.import_module modules modulename) as [module|].
  2:{ apply HQ; eapply (raise_outcome name ms lg [_; _] [_]); [exact Hexp | discriminate]. }
  destruct (Config.getattr module classname) as [cls|].
  2:{ apply HQ; eapply (raise_outcome name ms lg [_; _] [_]); [exact Hexp | discriminate]. }
  destruct (cls (default ∅ (params mcfg))) as [model0|].
  2:{ apply HQ; eapply (raise_outcome name ms lg [_; _] [_]); [exact Hexp | discriminate]. }
  cbn [models io_log]. rewrite <- ?app_assoc. cbn [app].
  destruct (checkpoints !! path) as [[sd|]|].
  2,3: apply HQ; eapply (raise_outcome name ms lg [_; _; _] []); [exact Hexp | discriminate].
  destruct cuda_available.
  2:{ apply HQ; eapply (raise_outcome name ms lg [_; _; _] []); [exact Hexp | discriminate]. }
  cbn [models io_log].
  apply HQ. right. eexists _, config, modulename, path.
  split; [reflexivity |]. split; [exact Hpath |]. split; [exact Hcfg |].
  split; [now apply Himp |]. split; [reflexivity |]. split; [reflexivity |].
  split; [exact Hexp |]. now repeat split.
Qed.

Lemma load_has_outcome (name : string) (w w' : @world V P) (r : result (@model V P)) :
  run name w = (r, w') -> load_outcome checkpoint_files config_files name w r w'.
Proof.
  intros H.
  apply (load_cases name w
           (fun p => p = (r, w') ->
                     load_outcome checkpoint_files config_files name w r w'));
    [| exact H].
  intros r0 w0 Hout [= <- <-]. exact Hout.
Qed.

(** X11.  A [load] that raises, for whatever reason (unknown name,
    missing or malformed configuration, import failure, constructor
    error, unreadable checkpoint, no CUDA device), leaves the registry
    exactly as it was. *)
Theorem load_failure_keeps_registry (name : string) (w w' : @world V P) (e : exn) :
  run name w = (Raise e, w') -> models w' = models w.
Proof.
  intros H. destruct (load_has_outcome _ _ _ _ H)
    as [(e' & evs & rest & _ & Hm & _) | (m & config & mn & path & Hr & _)].
  - exact Hm.
  - discriminate Hr.
Qed.

(** X12.  A [load] that returns has registered the very model it returns
    under [name], replacing any earlier entry and touching no other; the
    model is in half precision, on the CUDA device and in inference mode. *)
Theorem load_success_registers_model (name : string) (w w' : @world V P)
    (m : @model V P) :
  run name w = (Ok m, w') ->
  models w' !! name = Some m /\
  (forall other, other <> name -> models w' !! other = models w !! other) /\
  half_precision m = true /\ on_cuda m = true /\ training m = false.
Proof.
  intros H. destruct (load_has_outcome _ _ _ _ H)
    as [(e' & evs & rest & Hr & _)
       | (m' & config & mn & path & Hr & _ & _ & _ & Hm & _ & _ & Hh & Hc & Ht)].
  - discriminate Hr.
  - injection Hr as <-. rewrite Hm. split; [apply lookup_insert_eq |].
    split; [| now repeat split].
    intros other Hne. now apply lookup_insert_ne.
Qed.


End LoaderOutcomes.

Lemma load_failure_keeps_registry_witness :
  Loader.models
    (snd (Loader.load Loader.demo_checkpoint_files Loader.demo_config_files
            Loader.demo_checkpoints Loader.demo_modules false "sd-v1"
            Loader.demo_world))
  = Loader.models Loader.demo_world.
Proof.
  apply (load_failure_keeps_registry Loader.demo_checkpoint_files
           Loader.demo_config_files Loader.demo_checkpoints Loader.demo_modules
           false "sd-v1" Loader.demo_world _
           (Exn RuntimeError "No CUDA GPUs are available")).
  vm_compute. reflexivity.
Defined.

Lemma load_success_registers_model_witness :
  exists m,
    Loader.models (snd (Loader.demo_load "sd-v1" Loader.demo_world)) !! "sd-v1"
    = Some m /\
    Loader.half_precision m = true /\ Loader.on_cuda m = true /\
    Loader.training m = false.
Proof.
  exists (Loader.Model "ldm.LatentDiffusion" {[ "dim" := 4 ]} {[ "w" := 42 ]}
            true true false).
  destruct (load_success_registers_model Loader.demo_checkpoint_files
              Loader.demo_config_files Loader.demo_checkpoints
              Loader.demo_modules true "sd-v1" Loader.demo_world
              (snd (Loader.demo_load "sd-v1" Loader.demo_world))
              (Loader.Model "ldm.LatentDiffusion" {[ "dim" := 4 ]}
                 {[ "w" := 42 ]} true true false))
    as (Hreg & _ & Hflags).
  - vm_compute. reflexivity.
  - split; [exact Hreg | exact Hflags].
Defined.


(** ** [get_obj_from_str] and [instantiate_from_config]: resolution *)

Section PathProperties.
Import PyStr PathSpec.

Lemma rsplit_dot_none (s : string) : rsplit_dot s = None <-> has_dot s = false.
Proof.
  induction s as [|c s IH]; cbn; [tauto |].
  destruct (rsplit_dot s) as [[m cls]|].
  - split; [discriminate |]. intros H. apply orb_false_iff in H as [_ H].
    apply IH in H. discriminate.
  - destruct (Ascii.eqb c "."); cbn; [split; discriminate |].
    split; intros _; [now apply IH | reflexivity].
Qed.

Lemma dotted_nil (cls : string) : dotted "" cls = String "." cls.
Proof. reflexivity. Qed.

Lemma dotted_cons (a : ascii) (m cls : string) :
  dotted (String a m) cls = String a (dotted m cls).
Proof. reflexivity. Qed.

Lemma rsplit_dot_some (s m cls : string) :
  rsplit_dot s = Some (m, cls) <-> s = dotted m cls /\ has_dot cls = false.
Proof.
  revert m cls. induction s as [|c s IH]; intros m cls.
  - cbn. split; [discriminate |]. intros [H _]. now destruct m.
  - cbn [rsplit_dot]. destruct (rsplit_dot s) as [[m' cls']|] eqn:E.
    + split.
      * intros [= <- <-]. destruct (proj1 (IH m' cls') eq_refl) as [-> Hc].
        now rewrite dotted_cons.
      * intros [H Hc]. destruct m as [|a m].
        -- rewrite dotted_nil in H. injection H as -> ->.
           apply rsplit_dot_none in Hc. congruence.
        -- rewrite dotted_cons in H. injection H as -> ->.
           pose proof (proj2 (IH m cls) (conj eq_refl Hc)) as H'. congruence.
    + pose proof (proj1 (rsplit_dot_none s) E) as Hnodot.
      destruct (Ascii.eqb_spec c ".") as [-> | Hne].
      * split.
        -- intros [= <- <-]. now rewrite dotted_nil.
        -- intros [H Hc]. destruct m as [|a m].
           ++ rewrite dotted_nil in H. now injection H as ->.
           ++ rewrite dotted_cons in H. injection H as _ ->.
              pose proof (proj2 (IH m cls) (conj eq_refl Hc)) as H'. congruence.
      * split; [discriminate |]. intros [H Hc]. destruct m as [|a m].
        -- rewrite dotted_nil in H. injection H as -> _. congruence.
        -- rewrite dotted_cons in H. injection H as _ ->.
           pose proof (proj2 (IH m cls) (conj eq_refl Hc)) as H'. congruence.
Qed.

End PathProperties.

Section ResolutionProperties.
Import Config PathSpec.
Context {V Obj : Type}.
Variable modules : gmap string (gmap string (@constructor V Obj)).
Variable reload_module : string -> result (gmap string (@constructor V Obj)).

Lemma getattr_ok (attrs : gmap string (@constructor V Obj)) (cls : string)
    (f : @constructor V Obj) :
  getattr attrs cls = Ok f <-> attrs !! cls = Some f.
Proof.
  unfold getattr. destruct (attrs !! cls) as [f0|]; split; congruence.
Qed.

Lemma import_module_ok (name : string) (attrs : gmap string (@constructor V Obj)) :
  import_module modules name = Ok attrs <-> modules !! name = Some attrs.
Proof.
  unfold import_module. destruct (modules !! name) as [m|]; split; congruence.
Qed.

(** Without reload: the module as imported decides. *)
Lemma get_obj_from_str_iff (path : string) (f : @constructor V Obj) :
  get_obj_from_str modules reload_module (CStr path) false = Ok f <->
  exists module cls attrs,
    path = dotted module cls /\ has_dot cls = false /\
    modules !! module = Some attrs /\ attrs !! cls = Some f.
Proof.
  unfold get_obj_from_str. split.
  - destruct (PyStr.rsplit_dot path) as [[module cls]|] eqn:E; [| discriminate].
    apply rsplit_dot_some in E as [-> Hc].
    destruct (import_module modules module) as [attrs|] eqn:Hm; [| discriminate].
    cbn [rbind]. intros Hf. exists module, cls, attrs.
    repeat split; try assumption.
    + now apply import_module_ok.
    + now apply getattr_ok.
  - intros (module & cls & attrs & -> & Hc & Hm & Ha).
    rewrite (proj2 (rsplit_dot_some _ _ _) (conj eq_refl Hc)).
    rewrite (proj2 (import_module_ok _ _) Hm). cbn [rbind].
    now apply getattr_ok.
Qed.

(** X14.  [get_obj_from_str] takes the text before the last dot of the
    path as the module name and the text after it as the attribute name.
    Without [reload] it returns the attribute exactly when the module can
    be imported and has it.  With [reload] the module must be importable,
    the reload must succeed, and the attribute returned is the one the
    module has after the reload: a failing reload or an attribute that
    the reload removed makes the call raise, and an attribute that the
    reload replaced is returned in its new form. *)
Theorem get_obj_from_str_resolves (path : string) (f : @constructor V Obj) :
  (get_obj_from_str modules reload_module (CStr path) false = Ok f <->
   exists module cls attrs,
     path = dotted module cls /\ has_dot cls = false /\
     modules !! module = Some attrs /\ attrs !! cls = Some f) /\
  (get_obj_from_str modules reload_module (CStr path) true = Ok f <->
   exists module cls attrs attrs',
     path = dotted module cls /\ has_dot cls = false /\
     modules !! module = Some attrs /\
     reload_module module = Ok attrs' /\ attrs' !! cls = Some f).
Proof.
  split; [apply get_obj_from_str_iff |].
  unfold get_obj_from_str. split.
  - destruct (PyStr.rsplit_dot path) as [[module cls]|] eqn:E; [| discriminate].
    apply rsplit_dot_some in E as [-> Hc].
    destruct (import_module modules module) as [attrs|] eqn:Hm; [| discriminate].
    cbn [rbind].
    destruct (reload_module module) as [attrs'|] eqn:Hr; [| discriminate].
    cbn [rbind]. intros Hf. exists module, cls, attrs, attrs'.
    repeat split; try assumption.
    + now apply import_module_ok.
    + now apply getattr_ok.
  - intros (module & cls & attrs & attrs' & -> & Hc & Hm & Hr & Ha).
    rewrite (proj2 (rsplit_dot_some _ _ _) (conj eq_refl Hc)).
    rewrite (proj2 (import_module_ok _ _) Hm). cbn [rbind].
    rewrite Hr. cbn [rbind]. now apply getattr_ok.
Qed.

End ResolutionProperties.

Section InstantiateProperties.
Import Config PathSpec.
Context {V Obj : Type}.
Variable modules : gmap string (gmap string (@constructor V (option Obj))).
Variable reload_module : string -> result (gmap string (@constructor V (option Obj))).

(** X15.  [instantiate_from_config] returns [None] in two ways only: the
    configuration is one of the two marker strings, or it is a record
    whose [target] resolved to a callable and that callable, called with
    the record's [params], itself returned [None]. *)
Theorem instantiate_none_origin (c : @config V) :
  instantiate_from_config modules reload_module c = Ok None ->
  (c = ConfigStr "__is_first_stage__" \/ c = ConfigStr "__is_unconditional__") \/
  (exists d t f kw,
     c = ConfigDict d /\ d !! "target" = Some t /\
     get_obj_from_str modules reload_module t false = Ok f /\
     get_params c = Ok kw /\ f kw = Ok None).
Proof.
  unfold instantiate_from_config, first_stage_marker, unconditional_marker.
  destruct (has_target c) eqn:Hin; cbn [negb].
  - destruct c as [s|d]; [discriminate |]. cbn [getitem_target].
    destruct (d !! "target") as [t|] eqn:Ht; [| discriminate]. cbn [rbind].
    destruct (get_obj_from_str modules reload_module t false) as [f|] eqn:Hf;
      [| discriminate].
    cbn [rbind]. destruct (get_params (ConfigDict d)) as [kw|] eqn:Hkw; [| discriminate].
    cbn [rbind]. intros Hcall. right. now exists d, t, f, kw.
  - destruct (config_eq_str c "__is_first_stage__") eqn:E1.
    { intros _. left. left. now apply config_eq_str_true. }
    destruct (config_eq_str c "__is_unconditional__") eqn:E2.
    { intros _. left. right. now apply config_eq_str_true. }
    discriminate.
Qed.

(** X16.  For a record whose [target] resolves to a callable, the
    callable is called with the record's [params] as keyword arguments,
    or with none when [params] is absent; what it returns is returned and
    what it raises is raised. *)
Theorem instantiate_calls_target (d : gmap string (@cfg_value V))
    (module cls : string) (attrs : gmap string (@constructor V (option Obj)))
    (f : @constructor V (option Obj)) (kw : gmap string V) :
  d !! "target" = Some (CStr (dotted module cls)) ->
  has_dot cls = false ->
  modules !! module = Some attrs ->
  attrs !! cls = Some f ->
  (d !! "params" = Some (CMapping kw) \/ (d !! "params" = None /\ kw = ∅)) ->
  instantiate_from_config modules reload_module (ConfigDict d) = f kw.
Proof.
  intros Ht Hc Hm Ha Hp. unfold instantiate_from_config.
  cbn [has_target]. rewrite bool_decide_eq_true_2 by (rewrite Ht; eauto).
  cbn [negb getitem_target]. rewrite Ht. cbn [rbind].
  rewrite (proj2 (get_obj_from_str_iff modules reload_module (dotted module cls) f)).
  2:{ now exists module, cls, attrs. }
  cbn [rbind get_params].
  destruct Hp as [Hp | [Hp ->]]; rewrite Hp; reflexivity.
Qed.

End InstantiateProperties.

Lemma get_obj_from_str_resolves_witness :
  Config.get_obj_from_str Examples.demo_modules Examples.demo_reload
    (Config.CStr "pkg.mod.Cls") true = Ok Examples.demo_class.
Proof.
  apply (proj2 (proj2 (get_obj_from_str_resolves Examples.demo_modules
                         Examples.demo_reload "pkg.mod.Cls" Examples.demo_class))).
  exists "pkg.mod", "Cls", Examples.demo_attrs, Examples.demo_attrs.
  repeat split; vm_compute; reflexivity.
Defined.

Lemma instantiate_none_origin_witness :
  (Config.ConfigStr (V:=Z) "__is_unconditional__" = Config.ConfigStr "__is_first_stage__" \/
   Config.ConfigStr (V:=Z) "__is_unconditional__" = Config.ConfigStr "__is_unconditional__") \/
  (exists d t f kw,
     Config.ConfigStr (V:=Z) "__is_unconditional__" = Config.ConfigDict d /\
     d !! "target" = Some t /\
     Config.get_obj_from_str Examples.demo_modules Examples.demo_reload t false = Ok f /\
     Config.get_params (Config.ConfigStr (V:=Z) "__is_unconditional__") = Ok kw /\
     f kw = Ok None).
Proof.
  apply (instantiate_none_origin Examples.demo_modules Examples.demo_reload
           (Config.ConfigStr "__is_unconditional__")).
  reflexivity.
Defined.

(** A record whose target is a procedure gives [None] too. *)
Lemma instantiate_procedure_gives_none :
  Config.instantiate_from_config Examples.demo_modules Examples.demo_reload
    (Config.ConfigDict {[ "target" := Config.CStr "pkg.mod.enable" ]})
  = Ok None.
Proof. vm_compute. reflexivity. Qed.

Lemma instantiate_calls_target_witness :
  Config.instantiate_from_config Examples.demo_modules Examples.demo_reload
    (Config.ConfigDict {[ "target" := Config.CStr "pkg.mod.Cls" ]})
  = Examples.demo_class ∅.
Proof.
  apply (instantiate_calls_target Examples.demo_modules Examples.demo_reload
           {[ "target" := Config.CStr "pkg.mod.Cls" ]}
           "pkg.mod" "Cls" Examples.demo_attrs Examples.demo_class ∅).
  - vm_compute. reflexivity.
  - reflexivity.
  - vm_compute. reflexivity.
  - vm_compute. reflexivity.
  - right. split; [vm_compute; reflexivity | reflexivity].
Defined.

(** ** [append_dims], [append_zero], [to_d], [ismap] and [isimage] *)

Section TensorOpProperties.
Import Tensor TorchOps.
Context {A : Type}.

Lemma numel_app_ones (sh : list nat) (k : nat) :
  numel (sh ++ replicate k 1%nat) = numel sh.
Proof.
  unfold numel. rewrite foldr_app.
  replace (foldr Nat.mul 1%nat (replicate k 1%nat)) with 1%nat; [reflexivity |].
  induction k as [|k IH]; cbn; [reflexivity | lia].
Qed.

(** X17.  Appending dimensions in two steps is appending them in one:
    after [append_dims(x, n)] has succeeded, [append_dims] of its result
    to [m >= n] is [append_dims(x, m)]; with [m] equal to the rank it is
    the identity; and a well-formed tensor stays well-formed, with the
    same number of elements. *)
Theorem append_dims_composes (x y : tensor A) (n m : Z) :
  append_dims x n = Ok y ->
  n <= m ->
  append_dims y m = append_dims x m /\
  append_dims y n = Ok y /\
  numel (shape y) = numel (shape x) /\
  (well_formed x -> well_formed y).
Proof.
  unfold append_dims. intros Hy Hnm.
  destruct (Z.ltb_spec (n - Z.of_nat (ndim x)) 0) as [|Hge]; [discriminate |].
  injection Hy as <-.
  assert (Hnd : ndim (index_ellipsis_none x (Z.to_nat (n - Z.of_nat (ndim x))))
                = Z.to_nat n).
  { unfold ndim, index_ellipsis_none in *. cbn [shape].
    rewrite length_app, length_replicate. lia. }
  rewrite Hnd.
  destruct (Z.ltb_spec (m - Z.of_nat (Z.to_nat n)) 0) as [|_]; [lia |].
  destruct (Z.ltb_spec (m - Z.of_nat (ndim x)) 0) as [|_]; [lia |].
  destruct (Z.ltb_spec (n - Z.of_nat (Z.to_nat n)) 0) as [|_]; [lia |].
  unfold index_ellipsis_none. cbn [shape data].
  split; [| split; [| split]].
  - f_equal. f_equal. rewrite <- app_assoc, <- replicate_add. do 2 f_equal. lia.
  - f_equal. f_equal.
    replace (Z.to_nat (n - Z.of_nat (Z.to_nat n))) with 0%nat by lia.
    cbn. now rewrite app_nil_r.
  - apply numel_app_ones.
  - unfold well_formed. cbn [shape data]. now rewrite numel_app_ones.
Qed.

Variable zero : A.

(** X18.  [append_zero] works on one-dimensional tensors and on those
    only: a (well-formed) tensor of [n] elements comes back with [n + 1]
    elements, the old ones first and a zero last; a scalar or a tensor of
    two or more dimensions makes [torch.cat] raise. *)
Theorem append_zero_one_dimensional (x : tensor A) :
  (forall n, shape x = [n] -> well_formed x ->
     append_zero zero x = Ok (Tensor [(n + 1)%nat] (data x ++ [zero]))) /\
  (ndim x <> 1%nat ->
     exists msg, append_zero zero x = Raise (Exn RuntimeError msg)).
Proof.
  destruct x as [sh d]. unfold well_formed, ndim. cbn [shape data]. split.
  - intros n -> Hwf.
    unfold append_zero, cat, new_zeros, ndim, legacy_empty.
    cbn [existsb shape length Nat.eqb orb List.filter].
    destruct n as [|n].
    + rewrite bool_decide_eq_true_2 by reflexivity. cbn [negb].
      rewrite bool_decide_eq_false_2 by discriminate. cbn.
      destruct d; [reflexivity | discriminate].
    + rewrite bool_decide_eq_false_2 by discriminate. cbn [negb].
      rewrite bool_decide_eq_false_2 by discriminate.
      cbn [negb forallb shape tail].
      rewrite bool_decide_eq_true_2 by reflexivity.
      cbn. reflexivity.
  - intros Hnd. unfold append_zero, cat, new_zeros, ndim, legacy_empty.
    cbn [existsb shape length].
    destruct sh as [|a [|b rest]]; cbn [length] in *.
    + cbn. eauto.
    + congruence.
    + cbn [Nat.eqb orb List.filter shape].
      rewrite bool_decide_eq_false_2 by discriminate. cbn [negb].
      rewrite bool_decide_eq_false_2 by discriminate.
      cbn [negb forallb shape tail].
      rewrite bool_decide_eq_false_2 by discriminate.
      cbn. eauto.
Qed.

Variable tensor_sub : tensor A -> tensor A -> result (tensor A).
Variable tensor_div : tensor A -> tensor A -> result (tensor A).

(** X19.  Once [x - denoised] has been computed, [to_d] divides it by
    [sigma] with ones appended to its shape up to the rank of [x]; when
    [sigma] has more dimensions than [x] there is no such tensor and
    [to_d] raises the [ValueError] of [append_dims]. *)
Theorem to_d_broadcasts_sigma (x sigma denoised diff : tensor A) :
  tensor_sub x denoised = Ok diff ->
  ((ndim sigma <= ndim x)%nat ->
     to_d tensor_sub tensor_div x sigma denoised
     = tensor_div diff (Tensor (shape sigma ++ replicate (ndim x - ndim sigma) 1%nat)
                               (data sigma))) /\
  ((ndim x < ndim sigma)%nat ->
     to_d tensor_sub tensor_div x sigma denoised
     = Raise (Exn ValueError
                (append_dims_msg (ndim sigma) (Z.of_nat (ndim x))))).
Proof.
  intros Hsub. unfold to_d. rewrite Hsub. cbn [rbind]. unfold append_dims.
  split; intros Hrank.
  - destruct (Z.ltb_spec (Z.of_nat (ndim x) - Z.of_nat (ndim sigma)) 0) as [|_]; [lia |].
    cbn [rbind]. unfold index_ellipsis_none.
    replace (Z.to_nat (Z.of_nat (ndim x) - Z.of_nat (ndim sigma)))
      with (ndim x - ndim sigma)%nat by lia.
    reflexivity.
  - destruct (Z.ltb_spec (Z.of_nat (ndim x) - Z.of_nat (ndim sigma)) 0) as [_|]; [| lia].
    reflexivity.
Qed.

End TensorOpProperties.

Section MapImageProperties.
Import TorchOps.

(** X20.  Nothing is both a map and an image, and anything that is not a
    four-dimensional tensor is neither; a four-dimensional tensor with [c]
    channels is a map iff [c > 3], an image iff [c] is 1 or 3, and neither
    for [c] equal to 0 or 2. *)
Theorem ismap_isimage_classify (x : pyobj) :
  (ismap x && isimage x = false) /\
  (forall b c h w, x = TensorObj [b; c; h; w] ->
     (ismap x = true <-> (3 < c)%nat) /\
     (isimage x = true <-> c = 1%nat \/ c = 3%nat) /\
     (ismap x = false /\ isimage x = false <-> c = 0%nat \/ c = 2%nat)) /\
  ((forall sh, x = TensorObj sh -> length sh <> 4%nat) ->
     ismap x = false /\ isimage x = false).
Proof.
  split; [| split].
  - destruct x as [sh|]; [| reflexivity]. cbn.
    destruct (length sh =? 4)%nat; [| reflexivity].
    destruct (nth 1 sh 0%nat) as [|[|[|[|n]]]]; reflexivity.
  - intros b c h w ->. cbn.
    destruct c as [|[|[|[|c]]]]; cbn; repeat split; intros;
      try discriminate; try lia; try tauto;
      match goal with H : _ /\ _ |- _ => destruct H; discriminate | _ => idtac end.
  - intros Hsh. destruct x as [sh|]; [| now split]. cbn.
    destruct (Nat.eqb_spec (length sh) 4) as [Hlen|_]; [| now split].
    now destruct (Hsh sh eq_refl).
Qed.

End MapImageProperties.

Lemma append_dims_composes_witness :
  Tensor.append_dims (Tensor.Tensor [2; 1]%nat [5; 6]) 4
  = Tensor.append_dims (Tensor.Tensor [2]%nat [5; 6]) 4.
Proof.
  apply (proj1 (append_dims_composes (Tensor.Tensor [2]%nat [5; 6])
                  (Tensor.Tensor [2; 1]%nat [5; 6]) 2 4 eq_refl ltac:(lia))).
Defined.

Lemma append_zero_one_dimensional_witness :
  TorchOps.append_zero 0 (Tensor.Tensor [3]%nat [7; 8; 9])
  = Ok (Tensor.Tensor [4]%nat [7; 8; 9; 0]) /\
  exists msg, TorchOps.append_zero 0 (Tensor.Tensor [1; 3]%nat [7; 8; 9])
              = Raise (Exn RuntimeError msg).
Proof.
  split.
  - apply (proj1 (append_zero_one_dimensional 0 (Tensor.Tensor [3]%nat [7; 8; 9]))
             3%nat); reflexivity.
  - apply (proj2 (append_zero_one_dimensional 0 (Tensor.Tensor [1; 3]%nat [7; 8; 9]))).
    cbn. lia.
Defined.

Lemma to_d_broadcasts_sigma_witness :
  TorchOps.to_d (Examples.same_shape_op Z.sub) (Examples.same_shape_op Z.div)
    (Tensor.Tensor [2; 1]%nat [9; 8]) (Tensor.Tensor [2]%nat [2; 4])
    (Tensor.Tensor [2; 1]%nat [1; 0])
  = Ok (Tensor.Tensor [2; 1]%nat [4; 2]).
Proof.
  rewrite (proj1 (to_d_broadcasts_sigma (Examples.same_shape_op Z.sub)
                    (Examples.same_shape_op Z.div)
                    (Tensor.Tensor [2; 1]%nat [9; 8]) (Tensor.Tensor [2]%nat [2; 4])
                    (Tensor.Tensor [2; 1]%nat [1; 0])
                    (Tensor.Tensor [2; 1]%nat [8; 8]) eq_refl)).
  - reflexivity.
  - cbn. lia.
Defined.

Lemma ismap_isimage_classify_witness :
  (TorchOps.ismap (TorchOps.TensorObj [8; 4; 64; 64]%nat) = true <-> (3 < 4)%nat) /\
  (TorchOps.isimage (TorchOps.TensorObj [8; 4; 64; 64]%nat) = true
   <-> 4%nat = 1%nat \/ 4%nat = 3%nat).
Proof.
  destruct (proj1 (proj2 (ismap_isimage_classify (TorchOps.TensorObj [8; 4; 64; 64]%nat)))
              8%nat 4%nat 64%nat 64%nat eq_refl) as (Hmap & Himg & _).
  split; assumption.
Defined.

(** ** [log_txt_as_img] *)

Section LogTextProperties.
Import LogText.

Lemma chars_per_line_bounds (w : Z) :
  (7 <= w -> 1 <= chars_per_line w) /\ (0 <= w <= 6 -> chars_per_line w = 0).
Proof.
  unfold chars_per_line. split; intros Hw.
  - rewrite Z.quot_div_nonneg by lia.
    apply Z.div_le_lower_bound; lia.
  - rewrite Z.quot_div_nonneg by lia. apply Z.div_small. lia.
Qed.

Lemma slices_are_chunks {X} (xs : list X) (step : Z) :
  1 <= step ->
  exists starts,
    Prefetch.range0 (Z.of_nat (length xs)) step = Ok starts /\
    map (fun start => Prefetch.slice xs start step) starts = Prefetch.chunks xs step.
Proof.
  intros Hstep. unfold Prefetch.range0.
  destruct (Z.eqb_spec step 0) as [|_]; [lia |].
  destruct (Z.ltb_spec step 0) as [|_]; [lia |].
  eexists. split; [reflexivity |].
  unfold Prefetch.chunks, Prefetch.ceil_div. rewrite !map_map.
  apply map_ext. intros j. unfold Prefetch.slice. do 2 f_equal. lia.
Qed.

Lemma filter_join (f : ascii -> bool) (sep : ascii) (parts : list (list ascii)) :
  f sep = false ->
  List.filter f (join [sep] parts) = List.filter f (concat parts).
Proof.
  intros Hsep. induction parts as [|p [|q rest] IH].
  - reflexivity.
  - cbn. now rewrite app_nil_r.
  - change (join [sep] (p :: q :: rest)) with (p ++ [sep] ++ join [sep] (q :: rest)).
    change (concat (p :: q :: rest)) with (p ++ concat (q :: rest)).
    rewrite !List.filter_app, IH. cbn [List.filter]. now rewrite Hsep.
Qed.

Lemma filter_all (f : ascii -> bool) (xs : list ascii) :
  forallb f xs = true -> List.filter f xs = xs.
Proof.
  induction xs as [|x xs IH]; cbn; [reflexivity |].
  intros H. apply andb_true_iff in H as [Hx Hxs]. now rewrite Hx, IH.
Qed.

(** X21.  On a canvas at least 7 pixels wide the caption is cut into
    lines of [nc = int(40 * width / 256)] characters: the lines laid end to
    end are the caption, none is longer than [nc], and for a caption
    without newlines, deleting the newlines from the wrapped text gives
    the caption back. *)
Theorem caption_lines_wrap (w : Z) (caption : list ascii) :
  7 <= w ->
  exists lines,
    caption_lines w caption = Ok (join [newline] lines) /\
    concat lines = caption /\
    Forall (fun l => Z.of_nat (length l) <= chars_per_line w) lines /\
    (forallb (fun c => negb (Ascii.eqb c newline)) caption = true ->
     List.filter (fun c => negb (Ascii.eqb c newline)) (join [newline] lines)
     = caption).
Proof.
  intros Hw.
  destruct (chars_per_line_bounds w) as [Hnc _]. specialize (Hnc Hw).
  destruct (slices_are_chunks caption _ Hnc) as (starts & Hrange & Hmap).
  exists (Prefetch.chunks caption (chars_per_line w)).
  split; [| split; [| split]].
  - unfold caption_lines. rewrite Hrange. cbn [rbind]. now rewrite Hmap.
  - now apply concat_chunks.
  - unfold Prefetch.chunks. apply List.Forall_map, List.Forall_forall.
    intros j _. rewrite length_take. lia.
  - intros Hplain. rewrite filter_join by reflexivity.
    rewrite concat_chunks by assumption. now apply filter_all.
Qed.

Variable encodable : list ascii -> bool.

Lemma check_size_ok (w h : Z) : 0 <= w -> 0 <= h -> check_size (w, h) = Ok tt.
Proof.
  intros Hw Hh. unfold check_size. cbn [fst snd].
  destruct (Z.ltb_spec w 0); [lia |]. destruct (Z.ltb_spec h 0); [lia |].
  reflexivity.
Qed.

(** X22.  Three ways to get [ValueError] instead of a tensor: an empty
    list of captions (there is nothing to stack); for any non-empty list, a
    negative width or height ([Image.new] refuses the size); and, for any
    non-empty list and a positive height, a canvas of 1 to 6 pixels width
    (the line length is zero and [range] refuses a zero step).  Nothing is
    printed in any of these cases. *)
Theorem log_txt_as_img_value_errors (w h : Z) (xc : list (list ascii))
    (out : list string) :
  log_txt_as_img encodable (w, h) [] out
  = (Raise (Exn ValueError "need at least one array to stack"), out) /\
  (w < 0 \/ h < 0 -> xc <> [] ->
   log_txt_as_img encodable (w, h) xc out
   = (Raise (Exn ValueError "Width and height must be >= 0"), out)) /\
  (1 <= w <= 6 -> 1 <= h -> xc <> [] ->
   log_txt_as_img encodable (w, h) xc out
   = (Raise (Exn ValueError "range() arg 3 must not be zero"), out)).
Proof.
  split; [reflexivity |]. split.
  - intros Hneg Hne. destruct xc as [|caption rest]; [congruence |].
    unfold log_txt_as_img. cbn [render_all].
    rewrite bind_assoc, bind_lift. unfold check_size. cbn [fst snd].
    destruct (Z.ltb_spec w 0); [reflexivity |].
    destruct (Z.ltb_spec h 0); [reflexivity | lia].
  - intros Hw Hh Hne. destruct xc as [|caption rest]; [congruence |].
    unfold log_txt_as_img. cbn [render_all].
    rewrite bind_assoc, bind_lift, check_size_ok by lia.
    cbn [fst]. rewrite bind_assoc, bind_lift. unfold caption_lines.
    destruct (chars_per_line_bounds w) as [_ Hnc]. rewrite Hnc by lia.
    reflexivity.
Qed.

(** The text drawn for a caption on a canvas of width [w >= 7]. *)
Lemma render_all_spec (w h : Z) (xc : list (list ascii)) (out : list string) :
  7 <= w -> 1 <= h ->
  render_all encodable (w, h) xc out
  = (Ok (map (fun caption =>
                let lines := join [newline]
                               (Prefetch.chunks caption (chars_per_line w)) in
                Canvas (w, h) (if encodable lines then Some lines else None)) xc),
     out ++ map (fun _ => skip_notice)
              (List.filter (fun caption =>
                 negb (encodable (join [newline]
                         (Prefetch.chunks caption (chars_per_line w))))) xc)).
Proof.
  intros Hw Hh. revert out. induction xc as [|caption rest IH]; intros out.
  - cbn. now rewrite app_nil_r.
  - cbn [render_all map List.filter].
    rewrite bind_lift, check_size_ok by lia. cbn [fst].
    assert (Hl : caption_lines w caption
                 = Ok (join [newline] (Prefetch.chunks caption (chars_per_line w)))).
    { unfold caption_lines.
      destruct (chars_per_line_bounds w) as [Hnc _]. specialize (Hnc Hw).
      destruct (slices_are_chunks caption _ Hnc) as (starts & Hrange & Hmap).
      rewrite Hrange. cbn [rbind]. now rewrite Hmap. }
    rewrite bind_lift, Hl.
    destruct (encodable _) eqn:Henc; cbn [negb].
    + rewrite bind_ret. unfold bind at 1. rewrite IH. reflexivity.
    + rewrite bind_assoc. unfold bind at 1, modify. rewrite bind_ret.
      unfold bind at 1. rewrite IH. cbn [map]. unfold ret.
      now rewrite <- app_assoc.
Qed.

(** X23.  For [b >= 1] captions and a canvas at least 7 pixels wide and
    1 pixel high the call returns a tensor of shape
    [(b, 3, height, width)] holding one canvas per caption, in caption
    order; a caption that the font cannot encode leaves its canvas blank
    and costs one printed notice, and does not disturb the others. *)
Theorem log_txt_as_img_batch (w h : Z) (xc : list (list ascii)) (out : list string) :
  7 <= w -> 1 <= h -> xc <> [] ->
  exists t out',
    log_txt_as_img encodable (w, h) xc out = (Ok t, out') /\
    txt_shape t = [Z.of_nat (length xc); 3; h; w] /\
    length (txt_items t) = length xc /\
    (forall i caption, xc !! i = Some caption ->
       exists lines,
         caption_lines w caption = Ok lines /\
         txt_items t !! i
         = Some (Canvas (w, h) (if encodable lines then Some lines else None))) /\
    out' = out ++ replicate
                    (length (List.filter (fun caption =>
                       negb (encodable (join [newline]
                               (Prefetch.chunks caption (chars_per_line w))))) xc))
                    skip_notice.
Proof.
  intros Hw Hh Hne. unfold log_txt_as_img. unfold bind.
  rewrite (render_all_spec w h xc out Hw Hh).
  destruct xc as [|c0 rest] eqn:Hxc; [congruence |]. rewrite <- Hxc in *.
  destruct (map _ xc) as [|i0 items] eqn:Hitems.
  { rewrite Hxc in Hitems. discriminate. }
  rewrite <- Hitems. unfold ret. eexists _, _. split; [reflexivity |].
  cbn [txt_shape txt_items fst snd]. rewrite length_map.
  split; [reflexivity |]. split; [reflexivity |]. split.
  - intros i caption Hi.
    destruct (chars_per_line_bounds w) as [Hnc _]. specialize (Hnc Hw).
    destruct (slices_are_chunks caption _ Hnc) as (starts & Hrange & Hmap).
    eexists. split.
    + unfold caption_lines. rewrite Hrange. cbn [rbind]. rewrite Hmap. reflexivity.
    + change (map ?f xc) with (f <$> xc). now rewrite list_lookup_fmap, Hi.
  - f_equal. clear. induction (List.filter _ xc) as [|x l IH]; cbn; [reflexivity |].
    now rewrite IH.
Qed.

End LogTextProperties.

Lemma caption_lines_wrap_witness :
  exists lines,
    LogText.caption_lines 16 (list_ascii_of_string "abcde")
    = Ok (LogText.join [LogText.newline] lines) /\
    concat lines = list_ascii_of_string "abcde".
Proof.
  destruct (caption_lines_wrap 16 (list_ascii_of_string "abcde") ltac:(lia))
    as (lines & Hlines & Hcat & _).
  exists lines. split; assumption.
Defined.

Lemma log_txt_as_img_value_errors_witness :
  LogText.log_txt_as_img Examples.ascii_only (4, 32) [list_ascii_of_string "a"] []
  = (Raise (Exn ValueError "range() arg 3 must not be zero"), []).
Proof.
  apply (proj2 (proj2 (log_txt_as_img_value_errors Examples.ascii_only 4 32
                         [list_ascii_of_string "a"] []))).
  - lia.
  - lia.
  - discriminate.
Defined.

Lemma log_txt_as_img_batch_witness :
  exists t out',
    LogText.log_txt_as_img Examples.ascii_only (16, 8)
      [list_ascii_of_string "ab?"; list_ascii_of_string "cd"] [] = (Ok t, out') /\
    LogText.txt_shape t = [2; 3; 8; 16] /\
    out' = [LogText.skip_notice].
Proof.
  destruct (log_txt_as_img_batch Examples.ascii_only 16 8
              [list_ascii_of_string "ab?"; list_ascii_of_string "cd"] [])
    as (t & out' & Hrun & Hshape & _ & _ & Hout).
  - lia.
  - lia.
  - discriminate.
  - exists t, out'. split; [exact Hrun |]. split; [exact Hshape |].
    rewrite Hout. reflexivity.
Defined.

(** ** [get_ancestral_step] and [create_random_tensors]: edge cases *)

Section AncestralStepEdge.
Import PyFloat AncestralStep.

(** X24.  On floats, a zero [sigma_from] with a non-zero [eta] never
    yields a step: the division by [sigma_from ** 2] raises
    [ZeroDivisionError], unless squaring [sigma_to] has already
    overflowed. *)
Theorem get_ancestral_step_zero_sigma_from (s : bool) (sigma_to eta : float) :
  truthy eta = true ->
  (forall to2, pow2 sigma_to = Ok to2 ->
     get_ancestral_step (S754_zero s) sigma_to eta
     = Raise (Exn ZeroDivisionError "float division by zero")) /\
  (forall e, pow2 sigma_to = Raise e ->
     get_ancestral_step (S754_zero s) sigma_to eta = Raise e).
Proof.
  intros Heta. unfold get_ancestral_step. rewrite Heta. cbn [negb].
  split.
  - intros to2 ->. reflexivity.
  - intros e ->. reflexivity.
Qed.

End AncestralStepEdge.

Lemma get_ancestral_step_zero_sigma_from_witness :
  AncestralStep.get_ancestral_step PyFloat.zero AncestralStep.half
    AncestralStep.eta_default
  = Raise (Exn ZeroDivisionError "float division by zero").
Proof.
  apply (proj1 (get_ancestral_step_zero_sigma_from false AncestralStep.half
                  AncestralStep.eta_default eq_refl)
           (PyFloat.of_dyadic 1 (-2))).
  vm_compute. reflexivity.
Defined.

Section RandomTensorState.
Import Tensor TorchOps.
Context {A G : Type}.
Variable manual_seed : Z -> G.
Variable normal : G -> A * G.

Lemma seed_loop_state (sh : list nat) (seeds : list Z) (last_seed : Z) (g : G) :
  forallb seed_in_range (seeds ++ [last_seed]) = true ->
  snd (seed_loop manual_seed normal sh (seeds ++ [last_seed]) g)
  = snd (draws normal (numel sh) (manual_seed last_seed)).
Proof.
  revert g. induction seeds as [|seed rest IH]; intros g Hok.
  - cbn [app forallb] in *. apply andb_true_iff in Hok as [Hlast _].
    cbn [seed_loop]. unfold bind, torch_manual_seed. rewrite Hlast.
    unfold put_state, torch_randn, ret.
    destruct (draws normal (numel sh) (manual_seed last_seed)) as [xs g1].
    reflexivity.
  - cbn [app forallb] in Hok. apply andb_true_iff in Hok as [Hseed Hrest].
    cbn [app seed_loop]. unfold bind at 1, torch_manual_seed. rewrite Hseed.
    unfold put_state. unfold bind at 1, torch_randn.
    destruct (draws normal (numel sh) (manual_seed seed)) as [xs g1].
    unfold bind at 1. specialize (IH g1 Hrest).
    destruct (seed_loop manual_seed normal sh (rest ++ [last_seed]) g1) as [[r|e] g2];
      exact IH.
Qed.

(** X25.  [create_random_tensors] overwrites the global generator: after
    a call with a non-empty list of seeds that torch accepts (each in
    [-2^63, 2^64 - 1]) the generator is in the state that seeding with the
    last seed and drawing one tensor leaves, whatever state it was in
    before; the returned tensor is well-formed, with
    [len(seeds) * numel(shape)] elements.  With an empty seed list the
    call raises (nothing to stack) and the generator is untouched. *)
Theorem create_random_tensors_generator_state (sh : list nat) (seeds : list Z)
    (last_seed : Z) (g : G) :
  ((forall s, In s (seeds ++ [last_seed]) -> - 2 ^ 63 <= s <= 2 ^ 64 - 1) ->
   exists out,
     create_random_tensors manual_seed normal sh (seeds ++ [last_seed]) g
     = (Ok out, snd (draws normal (numel sh) (manual_seed last_seed))) /\
     well_formed out /\
     length (data out) = (length (seeds ++ [last_seed]) * numel sh)%nat) /\
  create_random_tensors manual_seed normal sh [] g
  = (Raise (Exn RuntimeError "stack expects a non-empty TensorList"), g).
Proof.
  split; [| reflexivity].
  intros Hrange. apply seeds_in_range_forallb in Hrange.
  destruct (seed_loop_spec manual_seed normal sh (seeds ++ [last_seed]) g Hrange)
    as [g' Hloop].
  pose proof (seed_loop_state sh seeds last_seed g Hrange) as Hstate.
  rewrite Hloop in Hstate. cbn [snd] in Hstate. subst g'.
  unfold create_random_tensors, bind. rewrite Hloop. unfold lift.
  rewrite stack_draws by (destruct seeds; discriminate).
  eexists. split; [reflexivity |].
  assert (Hlen : forall ss : list Z,
            length (concat (map data (map (draw_for manual_seed normal sh) ss)))
            = (length ss * numel sh)%nat).
  { induction ss as [|s0 ss IH]; cbn; [reflexivity |].
    rewrite length_app, IH, draws_length. reflexivity. }
  unfold well_formed. cbn [data shape numel foldr].
  rewrite Hlen. split; reflexivity.
Qed.

End RandomTensorState.

Lemma create_random_tensors_generator_state_witness :
  exists out,
    Tensor.create_random_tensors Tensor.counter_seed Tensor.counter_normal
      [2]%nat ([5] ++ [9]) 100
    = (Ok out, 11) /\
    length (Tensor.data out) = 4%nat.
Proof.
  destruct (proj1 (create_random_tensors_generator_state Tensor.counter_seed
                     Tensor.counter_normal [2]%nat [5] 9 100))
    as (out & Hrun & _ & Hlen).
  - intros s [<- | [<- | []]]; split; apply Z.leb_le; reflexivity.
  - exists out. split; [exact Hrun | exact Hlen].
Defined.
